(** * easycpp.stubs: generation of [.pyi] stubs from a C++ source file

    A shallow embedding of [easycpp/stubs.py].  Python [str] values are
    lists of characters; a character is a code point below 256 carried by
    [ascii], and the classes [\w], [\d], [\s] follow the Unicode tables
    of CPython on that range.  The regular expressions of the module are
    kept as syntax and run by a backtracking matcher that lists the
    outcomes in the order in which [re] tries them.  Exceptions are the
    [Raise] results of a small error monad, and the file system is a finite
    map from paths to contents. *)

From Stdlib Require Import ZArith Ascii String Lia.
From stdpp Require Import base list gmap strings.

Local Open Scope Z_scope.
Local Open Scope list_scope.

(** ** Python strings *)

Module Str.

Definition text := list ascii.

(** A literal of the source, as a list of characters. *)
Definition py (s : string) : text := list_ascii_of_string s.

Definition LF : ascii := ascii_of_nat 10.
Definition TAB : ascii := ascii_of_nat 9.

Definition code (c : ascii) : nat := nat_of_ascii c.

Definition between (lo hi n : nat) : bool := (lo <=? n)%nat && (n <=? hi)%nat.

(** [str.isspace] on one character, which is also the class [\s]. *)
Definition is_space (c : ascii) : bool :=
  let n := code c in
  between 9 13 n || between 28 32 n || (n =? 133)%nat || (n =? 160)%nat.

(** The class [\d]. *)
Definition is_digit (c : ascii) : bool := between 48 57 (code c).

(** The class [\w]: alphanumeric characters and the underscore. *)
Definition is_word (c : ascii) : bool :=
  let n := code c in
  between 48 57 n || between 65 90 n || (n =? 95)%nat || between 97 122 n
  || (n =? 170)%nat || between 178 179 n || (n =? 181)%nat
  || between 185 186 n || between 188 190 n || between 192 214 n
  || between 216 246 n || between 248 255 n.

Fixpoint drop_while (p : ascii -> bool) (s : text) : text :=
  match s with
  | [] => []
  | c :: s' => if p c then drop_while p s' else s
  end.

Definition mem (c : ascii) (chars : text) : bool :=
  existsb (Ascii.eqb c) chars.

(** [s.lstrip(chars)]: every leading character that occurs in [chars] goes. *)
Definition lstrip (chars : text) (s : text) : text :=
  drop_while (fun c => mem c chars) s.

(** [s.strip()]: white space goes at both ends. *)
Definition strip (s : text) : text :=
  rev (drop_while is_space (rev (drop_while is_space s))).

Fixpoint starts_with (p s : text) : bool :=
  match p, s with
  | [], _ => true
  | _ :: _, [] => false
  | a :: p', b :: s' => Ascii.eqb a b && starts_with p' s'
  end.

Fixpoint replace_go (old new : text) (skip : nat) (s : text) : text :=
  match s with
  | [] => []
  | c :: s' =>
      match skip with
      | S n => replace_go old new n s'
      | O =>
          if starts_with old s
          then new ++ replace_go old new (length old - 1) s'
          else c :: replace_go old new 0 s'
      end
  end.

(** [s.replace(old, new)]: the occurrences of [old] are taken from left
    to right and do not overlap; an empty [old] matches between any two
    characters and at both ends. *)
Definition replace (old new : text) (s : text) : text :=
  match old with
  | [] => new ++ flat_map (fun c => c :: new) s
  | _ :: _ => replace_go old new 0 s
  end.

(** [s.split(sep)] for a separator of one character. *)
Fixpoint split (sep : ascii) (s : text) : list text :=
  match s with
  | [] => [[]]
  | c :: s' =>
      if Ascii.eqb c sep then [] :: split sep s'
      else match split sep s' with
           | h :: t => (c :: h) :: t
           | [] => [[c]]
           end
  end.

(** [' ' * n]: nothing for [n <= 0]. *)
Definition spaces (n : Z) : text := List.repeat " "%char (Z.to_nat n).

(** [c in s] for a single character. *)
Definition contains (c : ascii) (s : text) : bool := mem c s.

(** [str.join] with the empty separator. *)
Definition concat (l : list text) : text := List.concat l.

End Str.

Import Str.

(** ** The fragment of [re] that the module uses *)

Module Re.

(** Members of a bracketed class. *)
Inductive item : Type :=
  | Lit (c : ascii)
  | Word
  | Digit
  | Space.

Definition item_ok (i : item) (c : ascii) : bool :=
  match i with
  | Lit a => Ascii.eqb c a
  | Word => is_word c
  | Digit => is_digit c
  | Space => is_space c
  end.

(** What matches exactly one character. *)
Inductive atom : Type :=
  | Chr (c : ascii)
  | Cls (items : list item)
  | Dot.

Definition atom_ok (a : atom) (c : ascii) : bool :=
  match a with
  | Chr x => Ascii.eqb c x
  | Cls items => existsb (fun i => item_ok i c) items
  | Dot => negb (Ascii.eqb c LF)
  end.

(** Every repetition in the patterns of the module is over one
    character, so [Star] and [Plus] take an atom. *)
Inductive re : Type :=
  | Eps
  | One (a : atom)
  | Star (a : atom)
  | Plus (a : atom)
  | Seq (r1 r2 : re)
  | Opt (r : re)
  | Group (n : nat) (r : re).

Definition caps := list (nat * text).

Fixpoint get (n : nat) (c : caps) : option text :=
  match c with
  | [] => None
  | (k, w) :: c' => if (k =? n)%nat then Some w else get n c'
  end.

(** Greedy repetition: the longest run first, then the shorter ones. *)
Fixpoint star (a : atom) (s : text) (c : caps) : list (text * caps) :=
  match s with
  | [] => [([], c)]
  | x :: s' => if atom_ok a x then star a s' c ++ [(s, c)] else [(s, c)]
  end.

(** The outcomes of matching [r] at the start of [s], as the pairs of
    the remaining input and the groups, in the order of backtracking. *)
Fixpoint run (r : re) (s : text) (c : caps) : list (text * caps) :=
  match r with
  | Eps => [(s, c)]
  | One a =>
      match s with
      | x :: s' => if atom_ok a x then [(s', c)] else []
      | [] => []
      end
  | Star a => star a s c
  | Plus a =>
      match s with
      | x :: s' => if atom_ok a x then star a s' c else []
      | [] => []
      end
  | Seq r1 r2 => flat_map (fun o => run r2 (fst o) (snd o)) (run r1 s c)
  | Opt r' => run r' s c ++ [(s, c)]
  | Group n r' =>
      List.map (fun o => (fst o, (n, take (length s - length (fst o)) s) :: snd o))
               (run r' s c)
  end.

(** A match object: its length and its groups. *)
Record Match : Type := mkMatch { m_len : nat; m_caps : caps }.

(** [m.group(n)] for a group that took part in the match. *)
Definition group (m : Match) (n : nat) : text :=
  match get n (m_caps m) with
  | Some w => w
  | None => []
  end.

(** [pattern.match(s)]: the first outcome, if any. *)
Definition match_at (r : re) (s : text) : option Match :=
  match run r s [] with
  | [] => None
  | o :: _ => Some (mkMatch (length s - length (fst o)) (snd o))
  end.

(** [pattern.search(s)]: the match at the leftmost position that has one. *)
Fixpoint search (r : re) (s : text) : option Match :=
  match match_at r s with
  | Some m => Some m
  | None =>
      match s with
      | [] => None
      | _ :: s' => search r s'
      end
  end.

(** [pattern.sub(repl, s)] and [pattern.findall(s)] walk the matches from
    left to right without overlap.  The patterns they are used with
    start with a mandatory character, so a match is never empty; an
    empty one is passed over here. *)
Fixpoint sub_go (r : re) (repl : text) (skip : nat) (s : text) : text :=
  match s with
  | [] => []
  | c :: s' =>
      match skip with
      | S n => sub_go r repl n s'
      | O =>
          match match_at r s with
          | Some m =>
              match m_len m with
              | O => c :: sub_go r repl 0 s'
              | S n => repl ++ sub_go r repl n s'
              end
          | None => c :: sub_go r repl 0 s'
          end
      end
  end.

Definition sub (r : re) (repl : text) (s : text) : text := sub_go r repl 0 s.

Fixpoint findall_go (r : re) (skip : nat) (s : text) : list text :=
  match s with
  | [] => []
  | _ :: s' =>
      match skip with
      | S n => findall_go r n s'
      | O =>
          match match_at r s with
          | Some m =>
              match m_len m with
              | O => findall_go r 0 s'
              | S n => group m 1 :: findall_go r n s'
              end
          | None => findall_go r 0 s'
          end
      end
  end.

(** [pattern.findall(s)] for a pattern with one group: the texts of
    group 1. *)
Definition findall (r : re) (s : text) : list text := findall_go r 0 s.

(** The literal characters of a word, in sequence. *)
Fixpoint word (w : text) : re :=
  match w with
  | [] => Eps
  | c :: w' => Seq (One (Chr c)) (word w')
  end.

End Re.

Import Re.

Infix "-+-" := Seq (at level 60, right associativity).

(** ** The compiled patterns of the module *)

(** [\.c(pp)?] *)
Definition _FILE_SUFFIX_REGEX : re :=
  One (Chr ".") -+- One (Chr "c") -+- Opt (Group 1 (One (Chr "p") -+- One (Chr "p"))).

(** [([\w\d]+) ([\w_]+)(\([\w\d*\s\[\]]+\))] *)
Definition _FUNCTION_REGEX : re :=
  Group 1 (Plus (Cls [Word; Digit]))
  -+- One (Chr " ")
  -+- Group 2 (Plus (Cls [Word; Lit "_"]))
  -+- Group 3 (One (Chr "(")
               -+- Plus (Cls [Word; Digit; Lit "*"; Space; Lit "["; Lit "]"])
               -+- One (Chr ")")).

(** [[*&]] *)
Definition _POINTER_OR_ADDRESS : re := One (Cls [Lit "*"; Lit "&"]).

(** [class[\s\n\t]*([\w\d_]+)[\s\n\t]*\{[.\n]*] *)
Definition _GET_CLASSES_REGEX : re :=
  word (py "class")
  -+- Star (Cls [Space; Lit LF; Lit TAB])
  -+- Group 1 (Plus (Cls [Word; Digit; Lit "_"]))
  -+- Star (Cls [Space; Lit LF; Lit TAB])
  -+- One (Chr "{")
  -+- Star (Cls [Lit "."; Lit LF]).

(** [class[\s\n\t]*([\w\d_]+)] *)
Definition _CLASS_REGEX : re :=
  word (py "class")
  -+- Star (Cls [Space; Lit LF; Lit TAB])
  -+- Group 1 (Plus (Cls [Word; Digit; Lit "_"])).

(** [([\w\d_]+)\s+[*&]*([\w\d_]+);] *)
Definition _VAR_REGEX : re :=
  Group 1 (Plus (Cls [Word; Digit; Lit "_"]))
  -+- Plus (Cls [Space])
  -+- Star (Cls [Lit "*"; Lit "&"])
  -+- Group 2 (Plus (Cls [Word; Digit; Lit "_"]))
  -+- One (Chr ";").

(** [([\w\d_]+)\s+[*&]*([\w\d_]+)[\s\t\n]*\[[\s\t]*.*[\s\t]*]] *)
Definition _ARRAY_REGEX : re :=
  Group 1 (Plus (Cls [Word; Digit; Lit "_"]))
  -+- Plus (Cls [Space])
  -+- Star (Cls [Lit "*"; Lit "&"])
  -+- Group 2 (Plus (Cls [Word; Digit; Lit "_"]))
  -+- Star (Cls [Space; Lit TAB; Lit LF])
  -+- One (Chr "[")
  -+- Star (Cls [Space; Lit TAB])
  -+- Star Dot
  -+- Star (Cls [Space; Lit TAB])
  -+- One (Chr "]").

(** ** Exceptions *)

Inductive exn : Type :=
  | ValueError
  | FileNotFoundError.

Inductive result (A : Type) : Type :=
  | Ok (a : A)
  | Raise (e : exn).

Arguments Ok {A} a.
Arguments Raise {A} e.

Definition bind {A B : Type} (x : result A) (k : A -> result B) : result B :=
  match x with
  | Ok a => k a
  | Raise e => Raise e
  end.

Notation "'let*' x ':=' e 'in' k" := (bind e (fun x => k))
  (at level 10, x pattern, e at level 100, k at level 200).

(** ** The type resolver *)

(** The builtin types that the conversion table mentions. *)
Inductive pytype : Type :=
  | bool_t
  | str_t
  | int_t
  | float_t.

(** [t.__name__] *)
Definition type_name (t : pytype) : text :=
  match t with
  | bool_t => py "bool"
  | str_t => py "str"
  | int_t => py "int"
  | float_t => py "float"
  end.

(** The table of [Optional[type]] values; [None] is the inner [None]. *)
Definition _CTYPES_CONVERSIONS : gmap text (option pytype) :=
  list_to_map
    [ (py "void", None);
      (py "bool", Some bool_t);
      (py "char", Some str_t);
      (py "wchar_t", Some str_t);
      (py "short", Some int_t);
      (py "int", Some int_t);
      (py "long", Some int_t);
      (py "__int64", Some int_t);
      (py "size_t", Some int_t);
      (py "ssize_t", Some int_t);
      (py "float", Some float_t);
      (py "double", Some float_t) ].

(** What [type_] holds once the sentinel has been replaced. *)
Inductive pyval : Type :=
  | NoneV
  | TypeV (t : pytype)
  | StrV (s : text).

(** [str(v)] *)
Definition str_ (v : pyval) : text :=
  match v with
  | NoneV => py "None"
  | TypeV t => py "<class '" ++ type_name t ++ py "'>"
  | StrV s => s
  end.

(** The outer [None] of the lookup stands for [_sentinel]. *)
Definition _get_name (string : text) (classes : list text) : text :=
  let type_ :=
    match _CTYPES_CONVERSIONS !! string with
    | None =>
        if bool_decide (string ∈ classes) then StrV string
        else StrV (py "typing.Any")
    | Some None => NoneV
    | Some (Some t) => TypeV t
    end in
  let type_ :=
    match type_ with
    | TypeV t => StrV (type_name t)
    | v => v
    end in
  str_ type_.

(** ** The preamble *)

Definition line_ (s : string) : text := py s ++ [LF].

Definition BASE_STRING : text :=
  concat
    [ line_ "import typing";
      line_ "";
      line_ "T = typing.TypeVar('T')";
      line_ "";
      line_ "";
      line_ "class _MutableCollection(typing.Collection[T]):  # this is made to type arrays";
      line_ "    def __getitem__(self, name: str) -> T: ...";
      line_ "    def __setitem__(self, index: int, value: T) -> None: ...";
      line_ "    def __delitem__(self, index: int) -> None: ...";
      line_ "    ";
      line_ "# typing for C++ below";
      line_ "" ].

(** ** Function annotations *)

(** The body of [for parameter in parameters], with [signature] as the
    accumulator; unpacking a split that has not exactly two parts raises
    [ValueError]. *)
Fixpoint parameters_loop (classes : list text) (parameters : list text)
    (signature : text) : result text :=
  match parameters with
  | [] => Ok signature
  | parameter :: rest =>
      let parameter := replace (py "  ") (py " ") (strip parameter) in
      match split " " parameter with
      | [parameter_type_string; parameter_name] =>
          let parameter_type_string :=
            sub _POINTER_OR_ADDRESS [] parameter_type_string in
          let parameter_type := _get_name parameter_type_string classes in
          let parameter_name := sub _POINTER_OR_ADDRESS [] parameter_name in
          parameters_loop classes rest
            (signature ++ parameter_name ++ py ": " ++ parameter_type)
      | _ => Raise ValueError
      end
  end.

Definition _get_function_annotations (function_match : Match)
    (classes : list text) (current_level : Z) : result text :=
  let name := group function_match 2 in
  let signature := spaces current_level ++ py "def " ++ name ++ py "(" in
  let parameters :=
    split "," (replace (py ")") [] (replace (py "(") [] (group function_match 3))) in
  let* signature := parameters_loop classes parameters signature in
  let return_type_string :=
    lstrip (py "long ") (lstrip (py "unsigned ") (lstrip (py "*")
      (group function_match 1))) in
  let return_type := _get_name return_type_string classes in
  let signature := signature ++ py ") -> " in
  let signature := signature ++ return_type in
  let signature := signature ++ py ": ..." ++ [LF; LF] in
  Ok signature.

(** ** The walk over the lines *)

Definition is_match (m : option Match) : bool :=
  match m with
  | Some _ => true
  | None => false
  end.

(** One turn of [for line in code.split('\n')] on the pair of
    [stubs_string] and [current_level]. *)
Definition process_line (classes : list text) (line : text)
    (st : text * Z) : result (text * Z) :=
  let '(stubs_string, current_level) := st in
  let function_match := search _FUNCTION_REGEX line in
  let class_match := search _CLASS_REGEX line in
  let var_match := search _VAR_REGEX line in
  let array_match := search _ARRAY_REGEX line in
  let stubs_string :=
    match class_match with
    | Some m =>
        stubs_string ++ spaces current_level ++ py "class " ++ group m 1
        ++ py ":" ++ [LF] ++ spaces (current_level + 4) ++ py "..." ++ [LF]
    | None => stubs_string
    end in
  let* stubs_string :=
    match function_match with
    | Some m =>
        let* annotations := _get_function_annotations m classes current_level in
        Ok (stubs_string ++ annotations)
    | None => Ok stubs_string
    end in
  let stubs_string :=
    match var_match with
    | Some m =>
        let var_type := _get_name (group m 1) classes in
        stubs_string ++ spaces current_level ++ group m 2 ++ py ": "
        ++ var_type ++ [LF]
    | None => stubs_string
    end in
  let stubs_string :=
    match array_match with
    | Some m =>
        let array_type := _get_name (group m 1) classes in
        let array_name := group m 2 in
        stubs_string ++ spaces current_level ++ array_name
        ++ py ": _MutableCollection[" ++ array_type ++ py "]" ++ [LF]
    | None => stubs_string
    end in
  let current_level :=
    if contains "{" line && negb (is_match function_match)
    then current_level + 4 else current_level in
  let current_level :=
    if contains "}" line && (4 <=? current_level) && negb (is_match function_match)
    then current_level - 4 else current_level in
  Ok (stubs_string, current_level).

Fixpoint walk (classes : list text) (lines : list text) (st : text * Z)
    : result (text * Z) :=
  match lines with
  | [] => Ok st
  | line :: rest =>
      let* st' := process_line classes line st in
      walk classes rest st'
  end.

(** The part of [generate_stubs] between reading [code] and writing
    [stubs_string]. *)
Definition stubs_of (code : text) : result (text * Z) :=
  let stubs_string := BASE_STRING in
  let current_level := 0 in
  let classes := findall _GET_CLASSES_REGEX code in
  walk classes (split LF code) (stubs_string, current_level).

(** ** The file system and [generate_stubs] *)

Definition stubs_path_of (path : text) : text :=
  sub _FILE_SUFFIX_REGEX (py ".pyi") path.

(** Files are the keys of a finite map; opening a missing one for
    reading raises, opening for writing creates or truncates. *)
Definition generate_stubs (path : text) (fs : gmap text text)
    : result unit * gmap text text :=
  let stubs_path := stubs_path_of path in
  match fs !! path with
  | None => (Raise FileNotFoundError, fs)
  | Some code =>
      match stubs_of code with
      | Raise e => (Raise e, fs)
      | Ok (stubs_string, _) => (Ok tt, <[stubs_path := stubs_string]> fs)
      end
  end.

(** * The vocabulary of the statements *)

(** ** What a successful match says about the matched text *)

(** [matches r w c c']: the pattern [r] can consume exactly [w], taking
    the groups from [c] to [c']. *)
Inductive matches : re -> text -> caps -> caps -> Prop :=
  | m_eps c : matches Eps [] c c
  | m_one a x c : atom_ok a x = true -> matches (One a) [x] c c
  | m_star a w c : Forall (fun x => atom_ok a x = true) w -> matches (Star a) w c c
  | m_plus a w c :
      w <> [] -> Forall (fun x => atom_ok a x = true) w -> matches (Plus a) w c c
  | m_seq r1 r2 w1 w2 c c' c'' :
      matches r1 w1 c c' -> matches r2 w2 c' c'' ->
      matches (Seq r1 r2) (w1 ++ w2) c c''
  | m_opt_some r w c c' : matches r w c c' -> matches (Opt r) w c c'
  | m_opt_none r c : matches (Opt r) [] c c
  | m_group n r w c c' : matches r w c c' -> matches (Group n r) w c ((n, w) :: c').

Ltac inv_matches :=
  repeat match goal with
         | H : matches (Seq _ _) _ _ _ |- _ => inversion H; subst; clear H
         | H : matches (Group _ _) _ _ _ |- _ => inversion H; subst; clear H
         | H : matches (Plus _) _ _ _ |- _ => inversion H; subst; clear H
         | H : matches (Star _) _ _ _ |- _ => inversion H; subst; clear H
         | H : matches (One _) _ _ _ |- _ => inversion H; subst; clear H
         | H : matches Eps _ _ _ |- _ => inversion H; subst; clear H
         end.

(** ** The shape of one turn of the walk *)

Definition class_text (lvl : Z) (m : option Match) : text :=
  match m with
  | Some m =>
      spaces lvl ++ py "class " ++ group m 1 ++ py ":" ++ [LF]
      ++ spaces (lvl + 4) ++ py "..." ++ [LF]
  | None => []
  end.

Definition var_text (classes : list text) (lvl : Z) (m : option Match) : text :=
  match m with
  | Some m =>
      spaces lvl ++ group m 2 ++ py ": " ++ _get_name (group m 1) classes ++ [LF]
  | None => []
  end.

Definition array_text (classes : list text) (lvl : Z) (m : option Match) : text :=
  match m with
  | Some m =>
      spaces lvl ++ group m 2 ++ py ": _MutableCollection["
      ++ _get_name (group m 1) classes ++ py "]" ++ [LF]
  | None => []
  end.

Definition function_text (classes : list text) (lvl : Z) (m : option Match)
    : result text :=
  match m with
  | Some m => _get_function_annotations m classes lvl
  | None => Ok []
  end.

Definition next_level (line : text) (lvl : Z) : Z :=
  let l1 :=
    if contains "{" line && negb (is_match (search _FUNCTION_REGEX line))
    then lvl + 4 else lvl in
  if contains "}" line && (4 <=? l1) && negb (is_match (search _FUNCTION_REGEX line))
  then l1 - 4 else l1.

(** ** The type resolver, in the words of the specification *)

(** The resolver as the specification words it: the primitive table
    first, then the known classes, then the fallback. *)
Definition resolve (token : text) (knownClasses : list text) : text :=
  if bool_decide (token = py "void") then py "None"
  else if bool_decide (token = py "bool") then py "bool"
  else if bool_decide (token ∈ [py "char"; py "wchar_t"]) then py "str"
  else if bool_decide (token ∈ [py "short"; py "int"; py "long"; py "__int64";
                                py "size_t"; py "ssize_t"]) then py "int"
  else if bool_decide (token ∈ [py "float"; py "double"]) then py "float"
  else if bool_decide (token ∈ knownClasses) then token
  else py "typing.Any".

Definition primitive_keys : list text :=
  [py "void"; py "bool"; py "char"; py "wchar_t"; py "short"; py "int";
   py "long"; py "__int64"; py "size_t"; py "ssize_t"; py "float"; py "double"].

(** ** Emitted texts *)

(** An emitted text that starts with [lvl] spaces and then a character
    that is not a space; nothing is emitted without a match. *)
Definition indented (lvl : Z) (e : text) : Prop :=
  exists x body, e = spaces lvl ++ x :: body /\ x <> " "%char.

Definition emitted_at (lvl : Z) (m : option Match) (e : text) : Prop :=
  match m with
  | None => e = []
  | Some _ => indented lvl e
  end.

Definition occurs_in (p s : text) : Prop := exists a b, s = a ++ p ++ b.

(** ** Parameters *)

(** The [name: type] fragment that the loop appends for a parameter
    whose split gave the type token and the name token of [tn]. *)
Definition parameter_fragment (classes : list text) (tn : text * text) : text :=
  sub _POINTER_OR_ADDRESS [] (snd tn) ++ py ": "
  ++ _get_name (sub _POINTER_OR_ADDRESS [] (fst tn)) classes.

(** The parameter, stripped and with its double spaces replaced, splits
    on the space into exactly the two tokens of [tn]. *)
Definition splits_as (parameter : text) (tn : text * text) : Prop :=
  split " " (replace (py "  ") (py " ") (strip parameter)) = [fst tn; snd tn].

(** ** Destination paths, in the words of the specification *)

(** A substitution applied once, [pattern.sub(repl, s, count=1)]: only
    the leftmost match is replaced. *)
Fixpoint sub_first (r : re) (repl : text) (s : text) : text :=
  match s with
  | [] => []
  | c :: s' =>
      match match_at r s with
      | Some m =>
          match m_len m with
          | O => c :: sub_first r repl s'
          | S _ => repl ++ drop (m_len m) s
          end
      | None => c :: sub_first r repl s'
      end
  end.

(** The path with its trailing [.cpp] or [.c] replaced by [.pyi]. *)
Definition with_suffix_replaced (path : text) : text :=
  if starts_with (rev (py ".cpp")) (rev path)
  then take (length path - 4) path ++ py ".pyi"
  else if starts_with (rev (py ".c")) (rev path)
  then take (length path - 2) path ++ py ".pyi"
  else path.

(** [p in s] for texts. *)
Fixpoint has_substring (p s : text) : bool :=
  starts_with p s ||
  match s with
  | [] => false
  | _ :: s' => has_substring p s'
  end.

(** ** Mandatory characters and greedy repetition *)

(** The literal characters that every match of a pattern contains. *)
Fixpoint required (r : re) : list ascii :=
  match r with
  | One (Chr c) => [c]
  | Seq r1 r2 => required r1 ++ required r2
  | Group _ r' => required r'
  | _ => []
  end.

Definition parameter_class : atom :=
  Cls [Word; Digit; Lit "*"; Space; Lit "["; Lit "]"].

Definition identifier_class : atom := Cls [Word; Digit; Lit "_"].

(** The repetition of [a] cannot go on into [rest]. *)
Definition stops (a : atom) (rest : text) : Prop :=
  match rest with
  | [] => True
  | x :: _ => atom_ok a x = false
  end.

Definition all_ok (a : atom) (w : text) : Prop :=
  Forall (fun x => atom_ok a x = true) w.

Ltac by_cases_on_char x :=
  destruct x as [[] [] [] [] [] [] [] []]; vm_compute; intuition congruence.

(** No brace, parenthesis, bracket or semicolon in a text. *)
Definition plain (s : text) : Prop :=
  Forall (fun c => ~ In c (py "{}()[];")) s.

(** * Properties *)

(** ** Soundness of the matcher *)

Lemma star_sound a s c o :
  In o (star a s c) ->
  exists w, s = w ++ fst o /\ Forall (fun x => atom_ok a x = true) w /\ snd o = c.
Proof.
  revert o. induction s as [|x s IH]; intros o Hin; simpl in Hin.
  - destruct Hin as [<-|[]]. exists []. auto.
  - destruct (atom_ok a x) eqn:Hx.
    + apply in_app_iff in Hin. destruct Hin as [Hin|[<-|[]]].
      * destruct (IH _ Hin) as (w & -> & Hw & Hc).
        exists (x :: w). auto.
      * exists []. auto.
    + destruct Hin as [<-|[]]. exists []. auto.
Qed.

Lemma take_consumed (w rest : text) :
  take (length (w ++ rest) - length rest) (w ++ rest) = w.
Proof.
  rewrite length_app.
  replace (length w + length rest - length rest)%nat with (length w) by lia.
  apply take_app_length.
Qed.

Lemma run_sound r :
  forall s c o, In o (run r s c) ->
  exists w, s = w ++ fst o /\ matches r w c (snd o).
Proof.
  induction r as [|a|a|a|r1 IH1 r2 IH2|r IH|n r IH]; intros s c o Hin; simpl in Hin.
  - destruct Hin as [<-|[]]. exists []. split; [reflexivity|constructor].
  - destruct s as [|x s]; [destruct Hin|].
    destruct (atom_ok a x) eqn:Hx; [|destruct Hin].
    destruct Hin as [<-|[]]. exists [x]. split; [reflexivity|]. by constructor.
  - destruct (star_sound _ _ _ _ Hin) as (w & -> & Hw & ->).
    exists w. split; [reflexivity|]. by constructor.
  - destruct s as [|x s]; [destruct Hin|].
    destruct (atom_ok a x) eqn:Hx; [|destruct Hin].
    destruct (star_sound _ _ _ _ Hin) as (w & -> & Hw & ->).
    exists (x :: w). split; [reflexivity|]. constructor; [discriminate|auto].
  - apply in_flat_map in Hin. destruct Hin as (o1 & H1 & H2).
    destruct (IH1 _ _ _ H1) as (w1 & -> & M1).
    destruct (IH2 _ _ _ H2) as (w2 & E2 & M2).
    exists (w1 ++ w2). rewrite E2, app_assoc. split; [reflexivity|].
    econstructor; eauto.
  - apply in_app_iff in Hin. destruct Hin as [Hin|[<-|[]]].
    + destruct (IH _ _ _ Hin) as (w & -> & M). exists w. split; [reflexivity|].
      by apply m_opt_some.
    + exists []. split; [reflexivity|]. apply m_opt_none.
  - apply in_map_iff in Hin. destruct Hin as (o1 & <- & H1).
    destruct (IH _ _ _ H1) as (w & -> & M). simpl.
    exists w. split; [reflexivity|]. rewrite take_consumed. by constructor.
Qed.

Lemma match_at_sound r s m :
  match_at r s = Some m ->
  exists w rest, s = w ++ rest /\ m_len m = length w /\ matches r w [] (m_caps m).
Proof.
  unfold match_at. destruct (run r s []) as [|o l] eqn:E; [discriminate|].
  intros [= <-]. destruct (run_sound r s [] o) as (w & Hs & M).
  { rewrite E. by left. }
  exists w, (fst o). split; [exact Hs|]. simpl. split; [|exact M].
  rewrite Hs at 1. rewrite length_app. lia.
Qed.

Lemma search_sound r s m :
  search r s = Some m ->
  exists pre w rest,
    s = pre ++ w ++ rest /\ m_len m = length w /\ matches r w [] (m_caps m).
Proof.
  induction s as [|x s IH]; simpl.
  - destruct (match_at r []) eqn:E; [|discriminate].
    intros [= <-]. destruct (match_at_sound _ _ _ E) as (w & rest & ? & ? & ?).
    exists [], w, rest. auto.
  - destruct (match_at r (x :: s)) eqn:E.
    + intros [= <-]. destruct (match_at_sound _ _ _ E) as (w & rest & ? & ? & ?).
      exists [], w, rest. auto.
    + intros H. destruct (IH H) as (pre & w & rest & -> & ? & ?).
      exists (x :: pre), w, rest. auto.
Qed.

(** ** One turn of the walk, unfolded *)

Lemma process_line_eq classes line out lvl :
  process_line classes line (out, lvl) =
  let* e_fun := function_text classes lvl (search _FUNCTION_REGEX line) in
  Ok (out ++ class_text lvl (search _CLASS_REGEX line) ++ e_fun
          ++ var_text classes lvl (search _VAR_REGEX line)
          ++ array_text classes lvl (search _ARRAY_REGEX line),
      next_level line lvl).
Proof.
  unfold process_line, next_level, function_text, class_text, var_text, array_text.
  destruct (search _FUNCTION_REGEX line) as [fm|];
    destruct (search _CLASS_REGEX line) as [cm|];
    destruct (search _VAR_REGEX line) as [vm|];
    destruct (search _ARRAY_REGEX line) as [am|]; simpl;
    try destruct (_get_function_annotations fm classes lvl); simpl;
    rewrite <- ?app_assoc, ?app_nil_r; simpl; reflexivity.
Qed.

(** ** The type resolver *)

Lemma conversions_miss (token : text) :
  token ∉ primitive_keys -> _CTYPES_CONVERSIONS !! token = None.
Proof.
  intros H. unfold _CTYPES_CONVERSIONS.
  apply not_elem_of_list_to_map_1. exact H.
Qed.

Lemma get_name_other (token : text) (classes : list text) :
  token ∉ primitive_keys ->
  _get_name token classes =
  if bool_decide (token ∈ classes) then token else py "typing.Any".
Proof.
  intros H. unfold _get_name. rewrite (conversions_miss _ H).
  by destruct (bool_decide (token ∈ classes)).
Qed.

(** C3: the resolver of the code is the resolver of the specification:
    each of the twelve primitive tokens gives its mapped name ([void]
    gives [None]), any other token gives itself when it is a known class
    and [typing.Any] otherwise; being a total function it never raises. *)
Theorem get_name_is_resolve (token : text) (classes : list text) :
  _get_name token classes = resolve token classes.
Proof.
  unfold resolve.
  repeat case_bool_decide;
    repeat match goal with
           | H : _ ∈ _ :: _ |- _ => apply elem_of_cons in H as [H|H]
           | H : _ ∈ [] |- _ => by apply elem_of_nil in H
           end;
    subst; try reflexivity.
  - rewrite get_name_other, bool_decide_eq_true_2; [reflexivity|assumption|].
    unfold primitive_keys. set_unfold. tauto.
  - rewrite get_name_other, bool_decide_eq_false_2; [reflexivity|assumption|].
    unfold primitive_keys. set_unfold. tauto.
Qed.

(** ** The walk: composition, growth of the buffer, the counter *)

Arguments process_line : simpl never.
Arguments search : simpl never.

Lemma process_line_ok classes line out lvl out' lvl' :
  process_line classes line (out, lvl) = Ok (out', lvl') ->
  exists e_fun,
    function_text classes lvl (search _FUNCTION_REGEX line) = Ok e_fun /\
    out' = out ++ class_text lvl (search _CLASS_REGEX line) ++ e_fun
               ++ var_text classes lvl (search _VAR_REGEX line)
               ++ array_text classes lvl (search _ARRAY_REGEX line) /\
    lvl' = next_level line lvl.
Proof.
  rewrite process_line_eq.
  destruct (function_text classes lvl (search _FUNCTION_REGEX line)) as [e|e];
    simpl; [|discriminate].
  intros [= <- <-]. exists e. auto.
Qed.

Lemma walk_app classes l1 l2 st :
  walk classes (l1 ++ l2) st =
  let* st' := walk classes l1 st in walk classes l2 st'.
Proof.
  revert st. induction l1 as [|l l1 IH]; intros st; simpl; [reflexivity|].
  destruct (process_line classes l st) as [st'|e]; simpl; [apply IH|reflexivity].
Qed.

Lemma walk_extends classes lines :
  forall out lvl out' lvl',
  walk classes lines (out, lvl) = Ok (out', lvl') -> exists e, out' = out ++ e.
Proof.
  induction lines as [|l lines IH]; intros out lvl out' lvl'; simpl.
  - intros [= <- <-]. exists []. by rewrite app_nil_r.
  - destruct (process_line classes l (out, lvl)) as [[o1 l1]|e] eqn:E;
      simpl; [|discriminate].
    intros H. destruct (process_line_ok _ _ _ _ _ _ E) as (ef & _ & -> & _).
    destruct (IH _ _ _ _ H) as (e & ->).
    eexists. rewrite <- app_assoc. reflexivity.
Qed.

Lemma next_level_function line lvl :
  is_match (search _FUNCTION_REGEX line) = true -> next_level line lvl = lvl.
Proof.
  unfold next_level. intros ->. simpl. by rewrite !andb_false_r.
Qed.

Lemma next_level_other line lvl :
  is_match (search _FUNCTION_REGEX line) = false ->
  next_level line lvl =
  let l1 := if contains "{" line then lvl + 4 else lvl in
  if contains "}" line && (4 <=? l1) then l1 - 4 else l1.
Proof.
  unfold next_level. intros ->. simpl. by rewrite !andb_true_r.
Qed.

Lemma next_level_nonneg line lvl : 0 <= lvl -> 0 <= next_level line lvl.
Proof.
  intros H. unfold next_level.
  repeat match goal with
         | |- context [if ?b then _ else _] => destruct b eqn:?
         end; try lia.
  all: rewrite ?andb_true_iff in *; intuition lia.
Qed.

Lemma walk_level_nonneg classes lines :
  forall out lvl out' lvl',
  0 <= lvl -> walk classes lines (out, lvl) = Ok (out', lvl') -> 0 <= lvl'.
Proof.
  induction lines as [|l lines IH]; intros out lvl out' lvl' Hl; simpl.
  - by intros [= <- <-].
  - destruct (process_line classes l (out, lvl)) as [[o1 l1]|e] eqn:E;
      simpl; [|discriminate].
    destruct (process_line_ok _ _ _ _ _ _ E) as (ef & _ & _ & ->).
    apply IH. by apply next_level_nonneg.
Qed.

(** C6: in any state that the walk reaches from the initial counter [0],
    the counter is not negative before and after the next line; a line
    that matches the function pattern leaves it as it is, and any
    other line adds 4 when it contains an opening brace and then takes 4
    away when it contains a closing brace and the counter is at least 4. *)
Theorem indent_counter_step classes earlier line out lvl out' lvl' :
  walk classes earlier (BASE_STRING, 0) = Ok (out, lvl) ->
  process_line classes line (out, lvl) = Ok (out', lvl') ->
  0 <= lvl /\ 0 <= lvl' /\
  lvl' =
    if is_match (search _FUNCTION_REGEX line) then lvl
    else
      let l1 := if contains "{" line then lvl + 4 else lvl in
      if contains "}" line && (4 <=? l1) then l1 - 4 else l1.
Proof.
  intros Hw Hp.
  assert (0 <= lvl) as Hl by (eapply walk_level_nonneg; [|exact Hw]; lia).
  destruct (process_line_ok _ _ _ _ _ _ Hp) as (ef & _ & _ & ->).
  split; [exact Hl|]. split; [by apply next_level_nonneg|].
  destruct (is_match (search _FUNCTION_REGEX line)) eqn:E.
  - by apply next_level_function.
  - by apply next_level_other.
Qed.

Lemma indent_counter_step_witness :
  0 <= 4 /\ 0 <= 0 /\
  0 =
    if is_match (search _FUNCTION_REGEX (py "};")) then 4
    else
      let l1 := if contains "{" (py "};") then 4 + 4 else 4 in
      if contains "}" (py "};") && (4 <=? l1) then l1 - 4 else l1.
Proof.
  apply (indent_counter_step [] [py "class A {"] (py "};")
           (BASE_STRING ++ py "class A:" ++ [LF] ++ py "    ..." ++ [LF]) 4
           (BASE_STRING ++ py "class A:" ++ [LF] ++ py "    ..." ++ [LF]) 0);
    vm_compute; reflexivity.
Defined.

(** ** Where the emitted declarations start *)

Lemma identifier_start (w : text) :
  w <> [] ->
  Forall (fun x => atom_ok (Cls [Word; Digit; Lit "_"]) x = true) w ->
  exists x g, w = x :: g /\ x <> " "%char.
Proof.
  intros Hne Hall. destruct w as [|x g]; [congruence|].
  exists x, g. split; [reflexivity|].
  inversion Hall as [|? ? Hx _]; subst. intros ->. vm_compute in Hx. discriminate.
Qed.

Lemma var_match_name line m :
  search _VAR_REGEX line = Some m ->
  exists x g, group m 2 = x :: g /\ x <> " "%char.
Proof.
  intros H. destruct (search_sound _ _ _ H) as (pre & w & rest & _ & _ & M).
  unfold _VAR_REGEX in M. inv_matches.
  unfold group.
  match goal with E : _ = m_caps m |- _ => rewrite <- E end. simpl.
  by apply identifier_start.
Qed.

Lemma array_match_name line m :
  search _ARRAY_REGEX line = Some m ->
  exists x g, group m 2 = x :: g /\ x <> " "%char.
Proof.
  intros H. destruct (search_sound _ _ _ H) as (pre & w & rest & _ & _ & M).
  unfold _ARRAY_REGEX in M. inv_matches.
  unfold group.
  match goal with E : _ = m_caps m |- _ => rewrite <- E end. simpl.
  by apply identifier_start.
Qed.

Lemma parameters_loop_extends classes ps :
  forall sig sig',
  parameters_loop classes ps sig = Ok sig' -> exists e, sig' = sig ++ e.
Proof.
  induction ps as [|p ps IH]; intros sig sig'; cbn [parameters_loop].
  - intros [= <-]. exists []. by rewrite app_nil_r.
  - destruct (split " " (replace (py "  ") (py " ") (strip p)))
      as [|ty [|nm [|? ?]]]; try discriminate.
    intros H. destruct (IH _ _ H) as (e & ->).
    eexists. rewrite <- app_assoc. reflexivity.
Qed.

Lemma function_annotations_start m classes lvl sig :
  _get_function_annotations m classes lvl = Ok sig ->
  exists rest, sig = spaces lvl ++ py "def " ++ rest.
Proof.
  unfold _get_function_annotations.
  destruct (parameters_loop _ _ _) as [s|e] eqn:E; simpl; [|discriminate].
  intros [= <-]. destruct (parameters_loop_extends _ _ _ _ E) as (e & ->).
  eexists. rewrite <- !app_assoc. reflexivity.
Qed.

(** C7: what one line appends to the buffer is, in this order, the text
    for its class match, its function match, its variable match and its
    array match; each of these is absent without the match and otherwise
    starts with exactly as many spaces as the counter held when the line
    was reached, whatever the counter becomes after the line. *)
Theorem declarations_at_entry_level classes line out lvl out' lvl' :
  process_line classes line (out, lvl) = Ok (out', lvl') ->
  exists e_class e_fun e_var e_arr,
    out' = out ++ e_class ++ e_fun ++ e_var ++ e_arr /\
    emitted_at lvl (search _CLASS_REGEX line) e_class /\
    emitted_at lvl (search _FUNCTION_REGEX line) e_fun /\
    emitted_at lvl (search _VAR_REGEX line) e_var /\
    emitted_at lvl (search _ARRAY_REGEX line) e_arr.
Proof.
  intros H. destruct (process_line_ok _ _ _ _ _ _ H) as (ef & Hf & -> & _).
  exists (class_text lvl (search _CLASS_REGEX line)), ef,
    (var_text classes lvl (search _VAR_REGEX line)),
    (array_text classes lvl (search _ARRAY_REGEX line)).
  split; [reflexivity|]. repeat split.
  - destruct (search _CLASS_REGEX line) as [m|]; simpl; [|reflexivity].
    exists "c"%char. eexists. split; [reflexivity|discriminate].
  - destruct (search _FUNCTION_REGEX line) as [m|]; simpl in *.
    + destruct (function_annotations_start _ _ _ _ Hf) as (rest & ->).
      exists "d"%char. eexists. split; [reflexivity|discriminate].
    + by injection Hf as <-.
  - destruct (search _VAR_REGEX line) as [m|] eqn:E; simpl; [|reflexivity].
    destruct (var_match_name _ _ E) as (x & g & -> & Hx).
    exists x. eexists. split; [reflexivity|exact Hx].
  - destruct (search _ARRAY_REGEX line) as [m|] eqn:E; simpl; [|reflexivity].
    destruct (array_match_name _ _ E) as (x & g & -> & Hx).
    exists x. eexists. split; [reflexivity|exact Hx].
Qed.

Lemma declarations_at_entry_level_witness :
  exists e_class e_fun e_var e_arr,
    BASE_STRING ++ py "    count: int" ++ [LF]
    = BASE_STRING ++ e_class ++ e_fun ++ e_var ++ e_arr /\
    emitted_at 4 (search _CLASS_REGEX (py "int count;")) e_class /\
    emitted_at 4 (search _FUNCTION_REGEX (py "int count;")) e_fun /\
    emitted_at 4 (search _VAR_REGEX (py "int count;")) e_var /\
    emitted_at 4 (search _ARRAY_REGEX (py "int count;")) e_arr.
Proof.
  apply (declarations_at_entry_level [] (py "int count;") BASE_STRING 4
           (BASE_STRING ++ py "    count: int" ++ [LF]) 4).
  vm_compute. reflexivity.
Defined.

(** ** The array line of the specification *)

Lemma get_name_int classes : _get_name (py "int") classes = py "int".
Proof. vm_compute. reflexivity. Qed.

Lemma values_line classes out lvl :
  process_line classes (py "int values[10];") (out, lvl) =
  Ok (out ++ spaces lvl ++ py "values: _MutableCollection[int]" ++ [LF], lvl).
Proof.
  rewrite process_line_eq. unfold next_level.
  replace (search _FUNCTION_REGEX (py "int values[10];")) with (@None Match)
    by (vm_compute; reflexivity).
  replace (search _CLASS_REGEX (py "int values[10];")) with (@None Match)
    by (vm_compute; reflexivity).
  replace (search _VAR_REGEX (py "int values[10];")) with (@None Match)
    by (vm_compute; reflexivity).
  replace (search _ARRAY_REGEX (py "int values[10];"))
    with (Some (mkMatch 14 [(2%nat, py "values"); (1%nat, py "int")]))
    by (vm_compute; reflexivity).
  replace (contains "{" (py "int values[10];")) with false
    by (vm_compute; reflexivity).
  replace (contains "}" (py "int values[10];")) with false
    by (vm_compute; reflexivity).
  cbn [function_text class_text var_text array_text bind andb].
  change (group _ 1) with (py "int"). change (group _ 2) with (py "values").
  rewrite get_name_int. reflexivity.
Qed.

(** C5: when the source has the line [int values[10];] and the
    generation runs to its end, the output starts with the preamble and
    contains [values: _MutableCollection[int]]; [_MutableCollection] is
    the name under which the preamble declares the generic collection for
    arrays. *)
Theorem array_line_stub code out lvl :
  In (py "int values[10];") (split LF code) ->
  stubs_of code = Ok (out, lvl) ->
  (exists a b,
     out = BASE_STRING ++ a ++ py "values: _MutableCollection[int]" ++ b) /\
  occurs_in (py "class _MutableCollection(typing.Collection[T]):") BASE_STRING.
Proof.
  intros Hin Hw. split.
  - unfold stubs_of in Hw.
    destruct (in_split _ _ Hin) as (l1 & l2 & E). rewrite E, walk_app in Hw.
    destruct (walk _ l1 _) as [[o1 v1]|e] eqn:E1; cbn [bind] in Hw;
      [|discriminate].
    cbn [walk] in Hw. rewrite values_line in Hw. cbn [bind] in Hw.
    destruct (walk_extends _ _ _ _ _ _ E1) as (e1 & ->).
    destruct (walk_extends _ _ _ _ _ _ Hw) as (e2 & ->).
    exists (e1 ++ spaces v1), ([LF] ++ e2).
    rewrite <- !app_assoc. reflexivity.
  - exists (py "import typing" ++ [LF; LF] ++ py "T = typing.TypeVar('T')"
            ++ [LF; LF; LF]).
    eexists. vm_compute. reflexivity.
Qed.

Lemma array_line_stub_witness :
  (exists a b,
     BASE_STRING ++ py "values: _MutableCollection[int]" ++ [LF]
     = BASE_STRING ++ a ++ py "values: _MutableCollection[int]" ++ b) /\
  occurs_in (py "class _MutableCollection(typing.Collection[T]):") BASE_STRING.
Proof.
  apply (array_line_stub (py "int values[10];")
           (BASE_STRING ++ py "values: _MutableCollection[int]" ++ [LF]) 0).
  - vm_compute. left. reflexivity.
  - vm_compute. reflexivity.
Defined.

(** ** Malformed parameters *)

Lemma parameters_loop_raises classes ps :
  (exists p, In p ps /\
     length (split " " (replace (py "  ") (py " ") (strip p))) <> 2%nat) ->
  forall sig, parameters_loop classes ps sig = Raise ValueError.
Proof.
  induction ps as [|a ps IH]; intros (p & Hin & Hbad) sig; [destruct Hin|].
  cbn [parameters_loop].
  destruct (split " " (replace (py "  ") (py " ") (strip a)))
    as [|ty [|nm [|? ?]]] eqn:E; try reflexivity.
  destruct Hin as [->|Hin].
  - rewrite E in Hbad. by destruct Hbad.
  - apply IH. by exists p.
Qed.

Lemma parameters_loop_exn classes ps :
  forall sig e, parameters_loop classes ps sig = Raise e -> e = ValueError.
Proof.
  induction ps as [|a ps IH]; intros sig e; cbn [parameters_loop];
    [discriminate|].
  destruct (split " " (replace (py "  ") (py " ") (strip a)))
    as [|ty [|nm [|? ?]]]; try (by intros [= <-]).
  apply IH.
Qed.

Lemma process_line_exn classes line st e :
  process_line classes line st = Raise e -> e = ValueError.
Proof.
  destruct st as [out lvl]. rewrite process_line_eq.
  destruct (search _FUNCTION_REGEX line) as [m|]; cbn [function_text bind];
    [|discriminate].
  unfold _get_function_annotations.
  destruct (parameters_loop _ _ _) as [s|e'] eqn:E; cbn [bind]; [discriminate|].
  intros [= <-]. by apply parameters_loop_exn in E.
Qed.

Lemma process_line_raises classes line m parameter st :
  search _FUNCTION_REGEX line = Some m ->
  In parameter
     (split "," (replace (py ")") [] (replace (py "(") [] (group m 3)))) ->
  length (split " " (replace (py "  ") (py " ") (strip parameter))) <> 2%nat ->
  process_line classes line st = Raise ValueError.
Proof.
  intros Hm Hin Hbad. destruct st as [out lvl]. rewrite process_line_eq, Hm.
  cbn [function_text]. unfold _get_function_annotations.
  rewrite parameters_loop_raises; [reflexivity|]. by exists parameter.
Qed.

Lemma walk_raises classes lines line :
  In line lines ->
  (forall st, process_line classes line st = Raise ValueError) ->
  forall st, walk classes lines st = Raise ValueError.
Proof.
  intros Hin Hr. induction lines as [|l lines IH]; [destruct Hin|].
  intros st. cbn [walk]. destruct Hin as [->|Hin].
  - by rewrite Hr.
  - destruct (process_line classes l st) as [st'|e] eqn:E; cbn [bind].
    + by apply IH.
    + by rewrite (process_line_exn _ _ _ _ E).
Qed.

(** C9: when some line of the file matches the function pattern and one
    of its comma-separated parameters, once stripped and with double
    spaces replaced, does not split on the space into exactly two parts,
    [generate_stubs] raises [ValueError]; a line that matches none of the
    four patterns raises nothing and leaves the buffer as it is. *)
Theorem malformed_parameter_aborts :
  (forall path fs code line m parameter,
     fs !! path = Some code ->
     In line (split LF code) ->
     search _FUNCTION_REGEX line = Some m ->
     In parameter
        (split "," (replace (py ")") [] (replace (py "(") [] (group m 3)))) ->
     length (split " " (replace (py "  ") (py " ") (strip parameter))) <> 2%nat ->
     fst (generate_stubs path fs) = Raise ValueError) /\
  (forall classes line out lvl,
     search _FUNCTION_REGEX line = None ->
     search _CLASS_REGEX line = None ->
     search _VAR_REGEX line = None ->
     search _ARRAY_REGEX line = None ->
     exists lvl', process_line classes line (out, lvl) = Ok (out, lvl')).
Proof.
  split.
  - intros path fs code line m parameter Hfs Hin Hm Hp Hbad.
    unfold generate_stubs. rewrite Hfs. unfold stubs_of.
    rewrite (walk_raises _ _ line Hin); [reflexivity|].
    intros st. by eapply process_line_raises.
  - intros classes line out lvl Hf Hc Hv Ha.
    rewrite process_line_eq, Hf, Hc, Hv, Ha. cbn. rewrite app_nil_r.
    eexists. reflexivity.
Qed.

Lemma malformed_parameter_aborts_witness :
  fst (generate_stubs (py "a.cpp")
         {[ py "a.cpp" := py "int x;" ++ [LF] ++ py "int f(a)" ]})
  = Raise ValueError /\
  exists lvl', process_line [] (py "// nothing {") ([], 0) = Ok ([], lvl').
Proof.
  destruct malformed_parameter_aborts as [H1 H2]. split.
  - apply (H1 _ _ (py "int x;" ++ [LF] ++ py "int f(a)") (py "int f(a)")
             (mkMatch 8 [(3%nat, py "(a)"); (2%nat, py "f"); (1%nat, py "int")])
             (py "a")).
    + vm_compute. reflexivity.
    + vm_compute. right. left. reflexivity.
    + vm_compute. reflexivity.
    + vm_compute. left. reflexivity.
    + vm_compute. lia.
  - apply H2; vm_compute; reflexivity.
Defined.

(** ** Nothing is written when the walk fails *)

(** C10: when the file is there and the walk over its lines raises,
    [generate_stubs] raises the same exception and the file system is the
    one it started from, so the destination keeps what it held. *)
Theorem failed_walk_writes_nothing path fs code e :
  fs !! path = Some code ->
  stubs_of code = Raise e ->
  generate_stubs path fs = (Raise e, fs) /\
  snd (generate_stubs path fs) !! stubs_path_of path = fs !! stubs_path_of path.
Proof.
  intros Hfs Hw. unfold generate_stubs. by rewrite Hfs, Hw.
Qed.

Lemma failed_walk_writes_nothing_witness :
  let fs : gmap text text :=
    {[ py "a.cpp" := py "int f(a)"; py "a.pyi" := py "kept" ]} in
  generate_stubs (py "a.cpp") fs = (Raise ValueError, fs) /\
  snd (generate_stubs (py "a.cpp") fs) !! stubs_path_of (py "a.cpp")
  = fs !! stubs_path_of (py "a.cpp").
Proof.
  intros fs.
  apply (failed_walk_writes_nothing (py "a.cpp") fs (py "int f(a)") ValueError).
  - vm_compute. reflexivity.
  - vm_compute. reflexivity.
Defined.

(** ** The parameters of a function line *)

Lemma parameters_loop_concat classes ps :
  forall pairs sig,
  Forall2 splits_as ps pairs ->
  parameters_loop classes ps sig =
  Ok (sig ++ concat (map (parameter_fragment classes) pairs)).
Proof.
  induction ps as [|p ps IH]; intros pairs sig H;
    inversion H as [|? tn ? pairs' Hp Hr]; subst.
  - cbn. by rewrite app_nil_r.
  - cbn [parameters_loop]. rewrite Hp. rewrite (IH _ _ Hr).
    cbn [map concat List.concat]. unfold parameter_fragment at 2, concat.
    by rewrite <- !app_assoc.
Qed.

Lemma function_annotations_closed m classes lvl pairs :
  Forall2 splits_as
    (split "," (replace (py ")") [] (replace (py "(") [] (group m 3)))) pairs ->
  _get_function_annotations m classes lvl =
  Ok (spaces lvl ++ py "def " ++ group m 2 ++ py "("
      ++ concat (map (parameter_fragment classes) pairs)
      ++ py ") -> "
      ++ _get_name (lstrip (py "long ") (lstrip (py "unsigned ")
                      (lstrip (py "*") (group m 1)))) classes
      ++ py ": ..." ++ [LF; LF]).
Proof.
  intros H. unfold _get_function_annotations.
  rewrite (parameters_loop_concat _ _ _ _ H). cbn [bind].
  by rewrite <- !app_assoc.
Qed.

(** C8: for a match of the function pattern whose parameter text splits
    on the comma into parameters that each give a type token and a name
    token, however many they are and so for two or more, the signature
    holds between [(] and [)] the [name: type] fragments of the
    parameters in their order, one directly after the other with no
    character between two of them. *)
Theorem parameters_joined_without_separator m classes lvl pairs :
  Forall2 splits_as
    (split "," (replace (py ")") [] (replace (py "(") [] (group m 3)))) pairs ->
  exists head tail,
    head = spaces lvl ++ py "def " ++ group m 2 ++ py "(" /\
    starts_with (py ") -> ") tail = true /\
    _get_function_annotations m classes lvl =
    Ok (head ++ concat (map (parameter_fragment classes) pairs) ++ tail).
Proof.
  intros H. eexists. eexists. split; [reflexivity|]. split; [|].
  2:{ rewrite (function_annotations_closed _ _ _ _ H).
      rewrite <- !app_assoc. reflexivity. }
  reflexivity.
Qed.

Lemma parameters_joined_without_separator_witness :
  exists head tail,
    head = spaces 4 ++ py "def " ++ py "add" ++ py "(" /\
    starts_with (py ") -> ") tail = true /\
    _get_function_annotations
      (mkMatch 22 [(3%nat, py "(int a, Human *b)"); (2%nat, py "add");
                   (1%nat, py "void")])
      [py "Human"] 4
    = Ok (head ++ concat [py "a: int"; py "b: Human"] ++ tail).
Proof.
  apply (parameters_joined_without_separator
           (mkMatch 22 [(3%nat, py "(int a, Human *b)"); (2%nat, py "add");
                        (1%nat, py "void")])
           [py "Human"] 4 [(py "int", py "a"); (py "Human", py "*b")]).
  vm_compute. repeat constructor.
Defined.

(** ** The destination path *)

Lemma sub_go_skip r repl n :
  forall s, sub_go r repl n s = sub_go r repl 0 (drop n s).
Proof.
  induction n as [|n IH]; intros s.
  - by rewrite drop_0.
  - destruct s as [|c s]; [reflexivity|]. cbn [sub_go]. rewrite IH. reflexivity.
Qed.

(** What the suffix pattern finds at the start of a text. *)
Lemma suffix_match_at (s : text) :
  match_at _FILE_SUFFIX_REGEX s =
  if starts_with (py ".cpp") s then Some (mkMatch 4 [(1%nat, py "pp")])
  else if starts_with (py ".c") s then Some (mkMatch 2 [])
  else None.
Proof.
  unfold match_at, _FILE_SUFFIX_REGEX.
  destruct s as [|a s]; [reflexivity|].
  cbn [run flat_map atom_ok starts_with py list_ascii_of_string].
  rewrite (Ascii.eqb_sym "." a).
  destruct (Ascii.eqb a ".") eqn:Ea; cbn [andb flat_map app fst snd]; [|reflexivity].
  destruct s as [|b s]; [reflexivity|].
  cbn [run flat_map atom_ok starts_with].
  rewrite (Ascii.eqb_sym "c" b).
  destruct (Ascii.eqb b "c") eqn:Eb; cbn [andb flat_map app fst snd]; [|reflexivity].
  destruct s as [|c s]; [reflexivity|].
  cbn [run flat_map atom_ok starts_with List.map].
  rewrite (Ascii.eqb_sym "p" c).
  destruct (Ascii.eqb c "p") eqn:Ec; cbn [andb flat_map app fst snd List.map];
    [|rewrite ?app_nil_r; cbn; f_equal; f_equal; lia].
  destruct s as [|d s]; [cbn; f_equal; f_equal; lia|].
  cbn [run flat_map atom_ok starts_with List.map].
  rewrite (Ascii.eqb_sym "p" d).
  destruct (Ascii.eqb d "p") eqn:Ed; cbn [andb flat_map app fst snd List.map length].
  - replace (S (S (S (S (length s)))) - length s)%nat with 4%nat by lia.
    replace (S (S (length s)) - length s)%nat with 2%nat by lia.
    apply Ascii.eqb_eq in Ec, Ed. by subst.
  - replace (S (S (S (S (length s)))) - S (S (length s)))%nat with 2%nat by lia.
    reflexivity.
Qed.

Lemma stubs_path_of_unfold (path : text) :
  stubs_path_of path =
  match path with
  | [] => []
  | c :: rest =>
      if starts_with (py ".cpp") path then py ".pyi" ++ stubs_path_of (drop 4 path)
      else if starts_with (py ".c") path then py ".pyi" ++ stubs_path_of (drop 2 path)
      else c :: stubs_path_of rest
  end.
Proof.
  unfold stubs_path_of, sub. destruct path as [|c rest]; [reflexivity|].
  cbn [sub_go]. rewrite suffix_match_at.
  destruct (starts_with (py ".cpp") (c :: rest)); cbn [m_len].
  - rewrite sub_go_skip. reflexivity.
  - destruct (starts_with (py ".c") (c :: rest)); cbn [m_len]; [|reflexivity].
    rewrite sub_go_skip. reflexivity.
Qed.

Lemma starts_with_app p s : starts_with p s = true -> exists b, s = p ++ b.
Proof.
  revert s. induction p as [|x p IH]; intros s H; [by exists s|].
  destruct s as [|y s]; [discriminate|]. cbn in H.
  apply andb_true_iff in H as [E H]. apply Ascii.eqb_eq in E as ->.
  destruct (IH _ H) as (b & ->). by exists b.
Qed.

Lemma suffix_absent_head s t :
  has_substring (py ".c") s = false -> s <> [] ->
  starts_with (py "c") t = false ->
  starts_with (py ".c") (s ++ t) = false.
Proof.
  intros H Hne Ht. destruct s as [|x [|y s]]; [done| |].
  - cbn [app]. change (starts_with (py ".c") (x :: t))
      with (Ascii.eqb "." x && starts_with (py "c") t).
    by rewrite Ht, andb_false_r.
  - cbn [has_substring] in H. apply orb_false_iff in H as [H _]. exact H.
Qed.

Lemma stubs_path_of_stem stem t :
  has_substring (py ".c") stem = false ->
  starts_with (py "c") t = false ->
  stubs_path_of (stem ++ t) = stem ++ stubs_path_of t.
Proof.
  intros H Ht. induction stem as [|c stem IH]; [reflexivity|].
  rewrite stubs_path_of_unfold. cbn [app].
  assert (starts_with (py ".c") (c :: stem ++ t) = false) as E
    by (apply (suffix_absent_head (c :: stem) t); done).
  destruct (starts_with (py ".cpp") (c :: stem ++ t)) eqn:E4.
  - apply starts_with_app in E4 as (b & E4).
    change ((c :: stem) ++ t) with (c :: stem ++ t) in E. rewrite E4 in E.
    discriminate.
  - rewrite E. f_equal. apply IH.
    cbn [has_substring] in H. by apply orb_false_iff in H as [_ H].
Qed.

(** C4, as stated, fails: on [a.c/b.cpp] the substitution replaces both
    occurrences of the pattern, which is neither the path with its trailing
    suffix replaced nor the result of a substitution applied once. *)
Lemma suffix_rewrite_not_once :
  stubs_path_of (py "a.c/b.cpp") = py "a.pyi/b.pyi" /\
  with_suffix_replaced (py "a.c/b.cpp") = py "a.c/b.pyi" /\
  sub_first _FILE_SUFFIX_REGEX (py ".pyi") (py "a.c/b.cpp") = py "a.pyi/b.cpp" /\
  stubs_path_of (py "a.c/b.cpp") <> with_suffix_replaced (py "a.c/b.cpp") /\
  stubs_path_of (py "a.c/b.cpp")
  <> sub_first _FILE_SUFFIX_REGEX (py ".pyi") (py "a.c/b.cpp").
Proof.
  repeat split; try (vm_compute; reflexivity); vm_compute; discriminate.
Qed.

(** C4, amended: the destination path is the input path read from left
    to right, in which every [.cpp], and every [.c] that is not the start
    of a [.cpp], is replaced by [.pyi] and every other character is kept.
    So a stem without [.c] followed by [.cpp] or [.c] gives the stem
    followed by [.pyi], and a path without [.c] is left as it is. *)
Theorem destination_rewrites_every_suffix :
  (forall path,
     stubs_path_of path =
     match path with
     | [] => []
     | c :: rest =>
         if starts_with (py ".cpp") path
         then py ".pyi" ++ stubs_path_of (drop 4 path)
         else if starts_with (py ".c") path
         then py ".pyi" ++ stubs_path_of (drop 2 path)
         else c :: stubs_path_of rest
     end) /\
  (forall stem, has_substring (py ".c") stem = false ->
     stubs_path_of (stem ++ py ".cpp") = stem ++ py ".pyi" /\
     stubs_path_of (stem ++ py ".c") = stem ++ py ".pyi" /\
     stubs_path_of stem = stem).
Proof.
  split; [apply stubs_path_of_unfold|].
  intros stem H. repeat split.
  - rewrite stubs_path_of_stem; [reflexivity|exact H|reflexivity].
  - rewrite stubs_path_of_stem; [reflexivity|exact H|reflexivity].
  - rewrite <- (app_nil_r stem) at 1.
    rewrite stubs_path_of_stem; [by rewrite app_nil_r|exact H|reflexivity].
Qed.

Lemma destination_rewrites_every_suffix_witness :
  stubs_path_of (py "src/app" ++ py ".cpp") = py "src/app" ++ py ".pyi" /\
  stubs_path_of (py "src/app" ++ py ".c") = py "src/app" ++ py ".pyi" /\
  stubs_path_of (py "src/app") = py "src/app".
Proof.
  destruct destination_rewrites_every_suffix as [_ H].
  apply (H (py "src/app")). vm_compute. reflexivity.
Defined.

(** ** The function line of the specification *)

Lemma hello_line out lvl :
  process_line [py "Human"] (py "int hello(Human human)") (out, lvl) =
  Ok (out ++ spaces lvl ++ py "def hello(human: Human) -> typing.Any: ..."
          ++ [LF; LF], lvl).
Proof.
  rewrite process_line_eq. unfold next_level.
  replace (search _FUNCTION_REGEX (py "int hello(Human human)"))
    with (Some (mkMatch 22 [(3%nat, py "(Human human)"); (2%nat, py "hello");
                            (1%nat, py "int")]))
    by (vm_compute; reflexivity).
  replace (search _CLASS_REGEX (py "int hello(Human human)")) with (@None Match)
    by (vm_compute; reflexivity).
  replace (search _VAR_REGEX (py "int hello(Human human)")) with (@None Match)
    by (vm_compute; reflexivity).
  replace (search _ARRAY_REGEX (py "int hello(Human human)")) with (@None Match)
    by (vm_compute; reflexivity).
  cbn [function_text class_text var_text array_text is_match negb].
  rewrite !andb_false_r.
  rewrite (function_annotations_closed _ _ _ [(py "Human", py "human")])
    by (vm_compute; repeat constructor).
  cbn [bind app]. rewrite !app_nil_r. reflexivity.
Qed.

(** C1: with [Human] among the known classes, the line
    [int hello(Human human)] appends [def hello(human: Human) -> typing.Any: ...]
    and an empty line at the current indentation and leaves the counter
    as it was; the return type is [typing.Any] and not [int].  The same
    on a whole source whose pre-scan finds the class. *)
Theorem hello_stub_return_type :
  (forall out lvl,
     process_line [py "Human"] (py "int hello(Human human)") (out, lvl) =
     Ok (out ++ spaces lvl ++ py "def hello(human: Human) -> typing.Any: ..."
             ++ [LF; LF], lvl)) /\
  stubs_of (py "class Human {" ++ [LF] ++ py "};" ++ [LF]
            ++ py "int hello(Human human)")
  = Ok (BASE_STRING ++ py "class Human:" ++ [LF] ++ py "    ..." ++ [LF]
        ++ py "def hello(human: Human) -> typing.Any: ..." ++ [LF; LF], 0).
Proof.
  split; [apply hello_line|]. vm_compute. reflexivity.
Qed.

(** C2: the three [lstrip] calls take leading characters out of a set,
    not a prefix: the return token [int] becomes [t], so that the line
    [int size(int n)] gets the return type [typing.Any], while the same
    token as a parameter type resolves to [int]. *)
Theorem int_return_type_not_kept :
  lstrip (py "long ") (lstrip (py "unsigned ") (lstrip (py "*") (py "int")))
  = py "t" /\
  exists m,
    search _FUNCTION_REGEX (py "int size(int n)") = Some m /\
    group m 1 = py "int" /\
    forall lvl,
      _get_function_annotations m [] lvl =
      Ok (spaces lvl ++ py "def size(n: int) -> typing.Any: ..." ++ [LF; LF]).
Proof.
  split; [vm_compute; reflexivity|].
  exists (mkMatch 15 [(3%nat, py "(int n)"); (2%nat, py "size"); (1%nat, py "int")]).
  split; [vm_compute; reflexivity|]. split; [reflexivity|].
  intros lvl.
  rewrite (function_annotations_closed _ _ _ [(py "int", py "n")])
    by (vm_compute; repeat constructor).
  reflexivity.
Qed.

(** * Further properties of the module *)

(** ** What a pattern needs in order to match *)

Lemma matches_required r w c c' :
  matches r w c c' -> forall x, In x (required r) -> In x w.
Proof.
  induction 1 as [c|a y c Hy|a w c Hw|a w c Hne Hw|r1 r2 w1 w2 c c' c'' M1 IH1 M2 IH2
                 |r w c c' M IH|r c|n r w c c' M IH]; intros x Hx; cbn in Hx;
    try (by destruct Hx).
  - destruct a as [z| |]; try (by destruct Hx).
    destruct Hx as [<-|[]]. cbn in Hy. apply Ascii.eqb_eq in Hy as ->. by left.
  - apply in_app_iff in Hx. apply in_app_iff. destruct Hx; [left|right]; auto.
  - auto.
Qed.

Lemma mem_In x s : mem x s = true <-> In x s.
Proof.
  unfold mem. rewrite existsb_exists. split.
  - intros (y & Hy & E). apply Ascii.eqb_eq in E as ->. exact Hy.
  - intros H. exists x. split; [exact H|apply Ascii.eqb_refl].
Qed.

Lemma search_required r s m x :
  search r s = Some m -> In x (required r) -> contains x s = true.
Proof.
  intros H Hx. destruct (search_sound _ _ _ H) as (pre & w & rest & -> & _ & M).
  apply mem_In. apply in_app_iff. right. apply in_app_iff. left.
  eapply matches_required; eauto.
Qed.

Lemma search_without r s x :
  In x (required r) -> contains x s = false -> search r s = None.
Proof.
  intros Hx Hc. destruct (search r s) as [m|] eqn:E; [|reflexivity].
  rewrite (search_required _ _ _ _ E Hx) in Hc. discriminate.
Qed.

Lemma replace_single c s :
  replace [c] [] s = List.filter (fun x => negb (Ascii.eqb c x)) s.
Proof.
  unfold replace. induction s as [|x s IH]; [reflexivity|].
  cbn [replace_go starts_with List.filter length Nat.sub].
  destruct (Ascii.eqb c x); cbn [andb negb app]; [exact IH|by rewrite IH].
Qed.

Lemma split_no_sep sep s : mem sep s = false -> split sep s = [s].
Proof.
  induction s as [|c s IH]; [reflexivity|]. cbn [mem existsb split].
  intros H. apply orb_false_iff in H as [E H]. rewrite Ascii.eqb_sym in E.
  rewrite E. unfold mem in IH. by rewrite (IH H).
Qed.

Lemma filter_keeps {A} (p : A -> bool) l :
  Forall (fun x => p x = true) l -> List.filter p l = l.
Proof.
  induction 1 as [|x l Hx _ IH]; [reflexivity|]. cbn. by rewrite Hx, IH.
Qed.

Lemma parameter_class_excludes x :
  atom_ok parameter_class x = true ->
  x <> "("%char /\ x <> ")"%char /\ x <> ","%char.
Proof.
  intros H. repeat split; intros ->; vm_compute in H; discriminate.
Qed.

Lemma function_match_groups line m :
  search _FUNCTION_REGEX line = Some m ->
  exists g1 g2 p,
    m_caps m = [(3%nat, "("%char :: p ++ [")"%char]); (2%nat, g2); (1%nat, g1)] /\
    g1 <> [] /\ Forall (fun x => atom_ok (Cls [Word; Digit]) x = true) g1 /\
    g2 <> [] /\ Forall (fun x => atom_ok (Cls [Word; Lit "_"]) x = true) g2 /\
    p <> [] /\ Forall (fun x => atom_ok parameter_class x = true) p.
Proof.
  intros H. destruct (search_sound _ _ _ H) as (pre & w & rest & _ & _ & M).
  unfold _FUNCTION_REGEX in M. inv_matches.
  match goal with E : _ = m_caps m |- _ => try rewrite <- E end.
  repeat match goal with
         | H : atom_ok (Chr _) _ = true |- _ =>
             cbn in H; apply Ascii.eqb_eq in H; subst
         end.
  eexists _, _, _. split; [reflexivity|]. auto 10.
Qed.

Lemma replace_delimiters a b p :
  a <> b -> Forall (fun x => x <> a /\ x <> b) p ->
  replace [b] [] (replace [a] [] (a :: p ++ [b])) = p.
Proof.
  intros Hab Hp. rewrite !replace_single.
  assert (forall c, Forall (fun x => x <> c) p ->
            List.filter (fun x => negb (Ascii.eqb c x)) p = p) as Hkeep.
  { intros c Hc. apply filter_keeps. eapply Forall_impl; [exact Hc|].
    intros x Hx. cbn beta. apply negb_true_iff, Ascii.eqb_neq. congruence. }
  assert (Forall (fun x => x <> a) p) as Ha
    by (eapply Forall_impl; [exact Hp|]; intros x Hx; cbn beta in Hx; tauto).
  assert (Forall (fun x => x <> b) p) as Hb
    by (eapply Forall_impl; [exact Hp|]; intros x Hx; cbn beta in Hx; tauto).
  cbn [List.filter]. rewrite Ascii.eqb_refl. cbn [negb].
  rewrite List.filter_app, (Hkeep a Ha).
  cbn [List.filter].
  replace (Ascii.eqb a b) with false by (symmetry; by apply Ascii.eqb_neq).
  cbn [negb]. rewrite List.filter_app, (Hkeep b Hb).
  cbn [List.filter]. rewrite Ascii.eqb_refl. cbn [negb]. apply app_nil_r.
Qed.

Lemma function_match_parameter line m :
  search _FUNCTION_REGEX line = Some m ->
  exists p,
    group m 3 = py "(" ++ p ++ py ")" /\
    contains "," p = false /\
    split "," (replace (py ")") [] (replace (py "(") [] (group m 3))) = [p].
Proof.
  intros H. destruct (function_match_groups _ _ H)
    as (g1 & g2 & p & E & _ & _ & _ & _ & _ & Hp).
  exists p. unfold group. rewrite E. cbn [get Nat.eqb].
  assert (mem "," p = false) as Hc.
  { destruct (mem "," p) eqn:Em; [|reflexivity]. apply mem_In in Em.
    rewrite List.Forall_forall in Hp. apply Hp, parameter_class_excludes in Em.
    tauto. }
  split; [reflexivity|]. split; [exact Hc|].
  change (py ")") with [")"%char]. change (py "(") with ["("%char].
  rewrite replace_delimiters; [by apply split_no_sep|discriminate|].
  eapply Forall_impl; [exact Hp|]. intros x Hx.
  apply parameter_class_excludes in Hx. tauto.
Qed.

(** Whatever line the match comes from, the text between the parentheses
    holds no comma, so the loop over the parameters runs exactly once: the
    signature has one [name: type] fragment, or the unpacking raises. *)
Theorem function_line_has_one_parameter line m classes lvl :
  search _FUNCTION_REGEX line = Some m ->
  exists p,
    group m 3 = py "(" ++ p ++ py ")" /\
    contains "," p = false /\
    _get_function_annotations m classes lvl =
    match split " " (replace (py "  ") (py " ") (strip p)) with
    | [ty; nm] =>
        Ok (spaces lvl ++ py "def " ++ group m 2 ++ py "("
            ++ parameter_fragment classes (ty, nm) ++ py ") -> "
            ++ _get_name (lstrip (py "long ") (lstrip (py "unsigned ")
                            (lstrip (py "*") (group m 1)))) classes
            ++ py ": ..." ++ [LF; LF])
    | _ => Raise ValueError
    end.
Proof.
  intros H. destruct (function_match_parameter _ _ H) as (p & Hg & Hc & Hs).
  exists p. split; [exact Hg|]. split; [exact Hc|].
  unfold _get_function_annotations. rewrite Hs. cbn [parameters_loop].
  destruct (split " " (replace (py "  ") (py " ") (strip p)))
    as [|ty [|nm [|? ?]]]; try reflexivity.
  cbn [bind]. unfold parameter_fragment. cbn [fst snd].
  by rewrite <- !app_assoc.
Qed.

Lemma function_line_has_one_parameter_witness :
  exists p,
    py "(Human human)" = py "(" ++ p ++ py ")" /\
    contains "," p = false /\
    _get_function_annotations
      (mkMatch 23 [(3%nat, py "(Human human)"); (2%nat, py "hello");
                   (1%nat, py "void")])
      [py "Human"] 0
    = match split " " (replace (py "  ") (py " ") (strip p)) with
      | [ty; nm] =>
          Ok (spaces 0 ++ py "def " ++ py "hello" ++ py "("
              ++ parameter_fragment [py "Human"] (ty, nm) ++ py ") -> "
              ++ _get_name (lstrip (py "long ") (lstrip (py "unsigned ")
                              (lstrip (py "*") (py "void")))) [py "Human"]
              ++ py ": ..." ++ [LF; LF])
      | _ => Raise ValueError
      end.
Proof.
  apply (function_line_has_one_parameter (py "void hello(Human human)")
           (mkMatch 23 [(3%nat, py "(Human human)"); (2%nat, py "hello");
                        (1%nat, py "void")])
           [py "Human"] 0).
  vm_compute. reflexivity.
Defined.

(** ** Greedy first outcomes *)

Lemma star_head a w rest c :
  all_ok a w -> stops a rest -> exists l, star a (w ++ rest) c = (rest, c) :: l.
Proof.
  intros Hw Hr. induction Hw as [|y w Hy _ IH]; cbn [app].
  - destruct rest as [|x r]; cbn [star]; [by exists []|].
    cbn in Hr. rewrite Hr. by exists [].
  - cbn [star]. rewrite Hy. destruct IH as (l & ->). by eexists.
Qed.

Lemma star_run_head a w rest c :
  all_ok a w -> stops a rest ->
  exists l, run (Star a) (w ++ rest) c = (rest, c) :: l.
Proof. apply star_head. Qed.

Lemma plus_head a w rest c :
  w <> [] -> all_ok a w -> stops a rest ->
  exists l, run (Plus a) (w ++ rest) c = (rest, c) :: l.
Proof.
  intros Hne Hw Hr. destruct w as [|y w]; [done|].
  inversion Hw as [|? ? Hy Hw']; subst. cbn [app run]. rewrite Hy.
  by apply star_head.
Qed.

Lemma group_head n r w rest c c' l :
  run r (w ++ rest) c = (rest, c') :: l ->
  exists l', run (Group n r) (w ++ rest) c = (rest, (n, w) :: c') :: l'.
Proof.
  intros E. cbn [run]. rewrite E. cbn [List.map fst snd].
  rewrite take_consumed. by eexists.
Qed.

Lemma seq_head r1 r2 s c o l o' l' :
  run r1 s c = o :: l -> run r2 (fst o) (snd o) = o' :: l' ->
  exists l'', run (Seq r1 r2) s c = o' :: l''.
Proof.
  intros E1 E2. cbn [run]. rewrite E1. cbn [flat_map]. rewrite E2.
  by eexists.
Qed.

Lemma match_at_head r s o l :
  run r s [] = o :: l ->
  match_at r s = Some (mkMatch (length s - length (fst o)) (snd o)).
Proof. intros E. unfold match_at. by rewrite E. Qed.

Lemma search_head r s o l :
  run r s [] = o :: l -> exists n, search r s = Some (mkMatch n (snd o)).
Proof.
  intros E. destruct s; unfold search; rewrite (match_at_head _ _ _ _ E);
    by eexists.
Qed.

Lemma search_skip r pre s :
  (forall x t, In x pre -> match_at r (x :: t) = None) ->
  search r (pre ++ s) = search r s.
Proof.
  intros H. induction pre as [|x pre IH]; [reflexivity|].
  cbn [app]. change (search r (x :: pre ++ s))
    with (match match_at r (x :: pre ++ s) with
          | Some m => Some m
          | None => search r (pre ++ s)
          end).
  rewrite (H x (pre ++ s)) by (by left). apply IH.
  intros y t Hy. apply H. by right.
Qed.

(** ** Character classes *)

Lemma identifier_ok_word x : atom_ok identifier_class x = is_word x.
Proof. by_cases_on_char x. Qed.

Lemma space_ok x : atom_ok (Cls [Space]) x = is_space x.
Proof. by_cases_on_char x. Qed.

Lemma space_not_word x : is_space x = true -> is_word x = false.
Proof. by_cases_on_char x. Qed.

Lemma word_plain x :
  is_word x = true ->
  is_space x = false /\
  atom_ok (Cls [Lit "*"; Lit "&"]) x = false /\
  ~ In x (py "{}()[];").
Proof. by_cases_on_char x. Qed.

Lemma space_plain x :
  is_space x = true -> x <> "c"%char /\ ~ In x (py "{}()[];").
Proof. by_cases_on_char x. Qed.

Lemma mem_app x a b : mem x (a ++ b) = mem x a || mem x b.
Proof. unfold mem. apply existsb_app. Qed.

Lemma mem_absent x s : Forall (fun c => c <> x) s -> mem x s = false.
Proof.
  intros H. destruct (mem x s) eqn:E; [|reflexivity].
  apply mem_In in E. rewrite List.Forall_forall in H. by destruct (H x E).
Qed.

Lemma plain_absent x s : plain s -> In x (py "{}()[];") -> mem x s = false.
Proof.
  intros H Hx. apply mem_absent. eapply Forall_impl; [exact H|].
  intros c Hc ->. by apply Hc.
Qed.

Lemma words_plain w : Forall (fun x => is_word x = true) w -> plain w.
Proof.
  intros H. eapply Forall_impl; [exact H|]. intros x Hx.
  by apply word_plain in Hx as (_ & _ & Hx).
Qed.

Lemma spaces_plain w : Forall (fun x => is_space x = true) w -> plain w.
Proof.
  intros H. eapply Forall_impl; [exact H|]. intros x Hx.
  by apply space_plain in Hx as (_ & Hx).
Qed.

Lemma words_ok w :
  Forall (fun x => is_word x = true) w -> all_ok identifier_class w.
Proof.
  intros H. eapply Forall_impl; [exact H|]. intros x Hx.
  by rewrite identifier_ok_word.
Qed.

Lemma has_substring_app p a b : has_substring p (a ++ p ++ b) = true.
Proof.
  assert (starts_with p (p ++ b) = true) as Hs.
  { induction p as [|x p IH]; [reflexivity|]. cbn. by rewrite Ascii.eqb_refl, IH. }
  induction a as [|x a IH]; cbn [app].
  - destruct (p ++ b) eqn:E; cbn [has_substring]; by rewrite Hs.
  - cbn [has_substring]. rewrite IH. apply orb_true_r.
Qed.

Lemma class_needs_keyword s m :
  search _CLASS_REGEX s = Some m -> has_substring (py "class") s = true.
Proof.
  intros H. destruct (search_sound _ _ _ H) as (pre & w & rest & -> & _ & M).
  unfold _CLASS_REGEX in M. cbn [word py list_ascii_of_string] in M.
  inv_matches.
  repeat match goal with
         | H : atom_ok (Chr _) _ = true |- _ =>
             cbn in H; apply Ascii.eqb_eq in H; subst
         end.
  rewrite <- !app_assoc. cbn [app].
  apply (has_substring_app (py "class") pre).
Qed.

(** The variable pattern on [T name;]. *)
Lemma var_pattern_head ty nm :
  ty <> [] -> nm <> [] ->
  Forall (fun x => is_word x = true) ty ->
  Forall (fun x => is_word x = true) nm ->
  exists l,
    run _VAR_REGEX (ty ++ py " " ++ nm ++ py ";") []
    = ([], [(2%nat, nm); (1%nat, ty)]) :: l.
Proof.
  intros Hty Hnm Wty Wnm.
  destruct nm as [|n0 nm']; [done|].
  assert (is_word n0 = true) as Hn0 by (by inversion Wnm).
  destruct (word_plain _ Hn0) as (Hsp & Hpa & _).
  unfold _VAR_REGEX.
  destruct (plus_head identifier_class ty (py " " ++ (n0 :: nm') ++ py ";") [])
    as (l1 & E1); [done|by apply words_ok|reflexivity|].
  apply (group_head 1) in E1 as (l1' & E1).
  destruct (plus_head (Cls [Space]) (py " ") ((n0 :: nm') ++ py ";")
              [(1%nat, ty)]) as (l2 & E2);
    [done|apply List.Forall_cons; [reflexivity|apply List.Forall_nil]|cbn [stops app]; by rewrite space_ok|].
  destruct (star_run_head (Cls [Lit "*"; Lit "&"]) [] ((n0 :: nm') ++ py ";")
              [(1%nat, ty)]) as (l3 & E3); [apply List.Forall_nil|exact Hpa|].
  destruct (plus_head identifier_class (n0 :: nm') (py ";") [(1%nat, ty)])
    as (l4 & E4); [done|by apply words_ok|reflexivity|].
  apply (group_head 2) in E4 as (l4' & E4).
  assert (run (One (Chr ";")) (py ";") [(2%nat, n0 :: nm'); (1%nat, ty)]
          = [([], [(2%nat, n0 :: nm'); (1%nat, ty)])]) as E5 by reflexivity.
  destruct (seq_head _ _ _ _ _ _ _ _ E4 E5) as (l6 & E6).
  destruct (seq_head _ _ _ _ _ _ _ _ E3 E6) as (l7 & E7).
  destruct (seq_head _ _ _ _ _ _ _ _ E2 E7) as (l8 & E8).
  destruct (seq_head _ _ _ _ _ _ _ _ E1 E8) as (l9 & E9).
  exists l9. exact E9.
Qed.

Lemma var_not_at_space x t :
  is_space x = true -> match_at _VAR_REGEX (x :: t) = None.
Proof.
  intros H. unfold match_at, _VAR_REGEX. cbn [run].
  change (Cls [Word; Digit; Lit "_"]) with identifier_class.
  rewrite identifier_ok_word, (space_not_word _ H). reflexivity.
Qed.

Lemma var_line_absent pre ty nm x :
  plain pre -> plain ty -> plain nm -> In x (py "{}()[]") ->
  contains x (pre ++ ty ++ py " " ++ nm ++ py ";") = false.
Proof.
  intros Hp Ht Hn Hx. unfold contains.
  assert (In x (py "{}()[];")) as Hx'.
  { cbn in Hx |- *. tauto. }
  rewrite !mem_app, (plain_absent _ _ Hp Hx'), (plain_absent _ _ Ht Hx'),
    (plain_absent _ _ Hn Hx').
  cbn in Hx. destruct Hx as [<-|[<-|[<-|[<-|[<-|[<-|[]]]]]]]; reflexivity.
Qed.

(** A line that is a type token, a space, a name and a semicolon, after
    any white space and without the word [class], appends the one stub
    line [name: type] at the current indentation and leaves the counter
    as it is. *)
Theorem scalar_member_line classes pre ty nm out lvl :
  Forall (fun x => is_space x = true) pre ->
  ty <> [] -> nm <> [] ->
  Forall (fun x => is_word x = true) ty ->
  Forall (fun x => is_word x = true) nm ->
  has_substring (py "class") (pre ++ ty ++ py " " ++ nm ++ py ";") = false ->
  process_line classes (pre ++ ty ++ py " " ++ nm ++ py ";") (out, lvl) =
  Ok (out ++ spaces lvl ++ nm ++ py ": " ++ _get_name ty classes ++ [LF], lvl).
Proof.
  intros Hpre Hty Hnm Wty Wnm Hcl.
  set (line := pre ++ ty ++ py " " ++ nm ++ py ";") in *.
  assert (forall x, In x (py "{}()[]") -> contains x line = false) as Habs.
  { intros x Hx. apply var_line_absent;
      auto using spaces_plain, words_plain. }
  assert (search _FUNCTION_REGEX line = None) as Ef.
  { apply (search_without _ _ "("); [cbn; tauto|apply Habs; cbn; tauto]. }
  assert (search _ARRAY_REGEX line = None) as Ea.
  { apply (search_without _ _ "["); [cbn; tauto|apply Habs; cbn; tauto]. }
  assert (search _CLASS_REGEX line = None) as Ec.
  { destruct (search _CLASS_REGEX line) as [m|] eqn:E; [|reflexivity].
    apply class_needs_keyword in E. congruence. }
  assert (exists n, search _VAR_REGEX line
                    = Some (mkMatch n [(2%nat, nm); (1%nat, ty)])) as (n & Ev).
  { unfold line. rewrite search_skip.
    - destruct (var_pattern_head ty nm) as (l & E); try done.
      apply (search_head _ _ _ _ E).
    - intros x t Hx. apply var_not_at_space.
      rewrite List.Forall_forall in Hpre. by apply Hpre. }
  rewrite process_line_eq, Ef, Ea, Ec, Ev. unfold next_level. rewrite Ef.
  rewrite (Habs "{"%char), (Habs "}"%char) by (cbn; tauto).
  cbn [function_text class_text var_text array_text bind andb app].
  rewrite app_nil_r. reflexivity.
Qed.

Lemma scalar_member_line_witness :
  process_line [] (py "    unsigned count;") ([], 4) =
  Ok (py "    count: typing.Any" ++ [LF], 4).
Proof.
  apply (scalar_member_line [] (py "    ") (py "unsigned") (py "count") [] 4);
    try (vm_compute; done); try (repeat constructor).
Defined.

Lemma word_head w s c : run (word w) (w ++ s) c = [(s, c)].
Proof.
  induction w as [|x w IH]; [reflexivity|].
  cbn [word run app atom_ok]. rewrite Ascii.eqb_refl. cbn [flat_map fst snd].
  rewrite IH. reflexivity.
Qed.

Lemma gap_ok x : atom_ok (Cls [Space; Lit LF; Lit TAB]) x = is_space x.
Proof. by_cases_on_char x. Qed.

Lemma class_not_at_space x t :
  is_space x = true -> match_at _CLASS_REGEX (x :: t) = None.
Proof.
  intros H. apply space_plain in H as (H & _).
  unfold match_at, _CLASS_REGEX. cbn [word py list_ascii_of_string run atom_ok].
  apply Ascii.eqb_neq in H. rewrite H. reflexivity.
Qed.

(** The class pattern on [class Name], whatever follows the name. *)
Lemma class_pattern_head ws name rest :
  Forall (fun x => is_space x = true) ws ->
  name <> [] -> Forall (fun x => is_word x = true) name ->
  stops identifier_class rest ->
  exists l,
    run _CLASS_REGEX (py "class" ++ ws ++ name ++ rest) []
    = (rest, [(1%nat, name)]) :: l.
Proof.
  intros Hws Hne Wn Hr. unfold _CLASS_REGEX.
  pose proof (word_head (py "class") (ws ++ name ++ rest) []) as E1.
  destruct (star_run_head (Cls [Space; Lit LF; Lit TAB]) ws (name ++ rest) [])
    as (l2 & E2).
  { eapply Forall_impl; [exact Hws|]. intros x Hx. by rewrite gap_ok. }
  { destruct name as [|n0 name']; [done|]. cbn [app stops]. rewrite gap_ok.
    inversion Wn as [|? ? Hn0 _]; subst. by apply word_plain in Hn0 as (? & _). }
  destruct (plus_head identifier_class name rest []) as (l3 & E3);
    [done|by apply words_ok|exact Hr|].
  apply (group_head 1) in E3 as (l3' & E3).
  destruct (seq_head _ _ _ _ _ _ _ _ E2 E3) as (l4 & E4).
  destruct (seq_head _ _ _ _ _ _ _ _ E1 E4) as (l5 & E5).
  exists l5. exact E5.
Qed.

Lemma class_line_absent pre ws name ws2 x :
  plain pre -> plain ws -> plain name -> plain ws2 -> In x (py "}()[];") ->
  contains x (pre ++ py "class" ++ ws ++ name ++ ws2 ++ py "{") = false.
Proof.
  intros Hp Hw Hn Hw2 Hx. unfold contains.
  assert (In x (py "{}()[];")) as Hx'.
  { cbn in Hx |- *. tauto. }
  rewrite !mem_app, (plain_absent _ _ Hp Hx'), (plain_absent _ _ Hw Hx'),
    (plain_absent _ _ Hn Hx'), (plain_absent _ _ Hw2 Hx').
  cbn in Hx. destruct Hx as [<-|[<-|[<-|[<-|[<-|[<-|[]]]]]]]; reflexivity.
Qed.

(** A line that is [class], a name and an opening brace, with any white
    space around them, appends the class header at the current
    indentation and the placeholder four columns deeper, and adds 4 to the
    counter. *)
Theorem class_line_opens_block classes pre ws name ws2 out lvl :
  Forall (fun x => is_space x = true) pre ->
  Forall (fun x => is_space x = true) ws ->
  Forall (fun x => is_space x = true) ws2 ->
  name <> [] -> Forall (fun x => is_word x = true) name ->
  process_line classes (pre ++ py "class" ++ ws ++ name ++ ws2 ++ py "{")
    (out, lvl) =
  Ok (out ++ spaces lvl ++ py "class " ++ name ++ py ":" ++ [LF]
          ++ spaces (lvl + 4) ++ py "..." ++ [LF],
      lvl + 4).
Proof.
  intros Hpre Hws Hws2 Hne Wn.
  set (line := pre ++ py "class" ++ ws ++ name ++ ws2 ++ py "{") in *.
  assert (forall x, In x (py "}()[];") -> contains x line = false) as Habs.
  { intros x Hx. apply class_line_absent;
      auto using spaces_plain, words_plain. }
  assert (search _FUNCTION_REGEX line = None) as Ef.
  { apply (search_without _ _ "("); [cbn; tauto|apply Habs; cbn; tauto]. }
  assert (search _ARRAY_REGEX line = None) as Ea.
  { apply (search_without _ _ "["); [cbn; tauto|apply Habs; cbn; tauto]. }
  assert (search _VAR_REGEX line = None) as Ev.
  { apply (search_without _ _ ";"); [cbn; tauto|apply Habs; cbn; tauto]. }
  assert (exists n, search _CLASS_REGEX line
                    = Some (mkMatch n [(1%nat, name)])) as (n & Ec).
  { unfold line. rewrite search_skip.
    - destruct (class_pattern_head ws name (ws2 ++ py "{")) as (l & E);
        try done.
      + destruct Hws2 as [|x ws2' Hx _]; [reflexivity|].
        cbn [app stops]. by rewrite identifier_ok_word, (space_not_word _ Hx).
      + apply (search_head _ _ _ _ E).
    - intros x t Hx. apply class_not_at_space.
      rewrite List.Forall_forall in Hpre. by apply Hpre. }
  assert (contains "{" line = true) as Hopen.
  { unfold contains, line. rewrite !mem_app.
    replace (mem "{" (py "{")) with true by reflexivity.
    by rewrite !orb_true_r. }
  rewrite process_line_eq, Ef, Ea, Ec, Ev. unfold next_level. rewrite Ef, Hopen.
  rewrite (Habs "}"%char) by (cbn; tauto).
  cbn [function_text class_text var_text array_text bind andb app is_match negb].
  change (group _ 1) with name.
  rewrite ?app_nil_r, <- ?app_assoc. reflexivity.
Qed.

Lemma class_line_opens_block_witness :
  process_line [] (py "class Human {") ([], 0) =
  Ok (py "class Human:" ++ [LF] ++ py "    ..." ++ [LF], 4).
Proof.
  apply (class_line_opens_block [] [] (py " ") (py "Human") (py " ") [] 0);
    try (vm_compute; done); repeat constructor.
Defined.

(** ** The return token *)

Lemma drop_while_length p (s : text) : (length (drop_while p s) <= length s)%nat.
Proof.
  induction s as [|c s IH]; cbn [drop_while]; [lia|].
  destruct (p c); cbn [length]; lia.
Qed.

Lemma lstrip_keeps chars x g : mem x chars = false -> lstrip chars (x :: g) = x :: g.
Proof. intros H. unfold lstrip. cbn [drop_while]. by rewrite H. Qed.

Lemma lstrip_shortens chars x g :
  mem x chars = true -> (length (lstrip chars (x :: g)) <= length g)%nat.
Proof.
  intros H. unfold lstrip. cbn [drop_while]. rewrite H. apply drop_while_length.
Qed.

Lemma lstrip_length chars s : (length (lstrip chars s) <= length s)%nat.
Proof. apply drop_while_length. Qed.

(** The three [lstrip] calls leave a return token as it is exactly when
    its first character is none of [*], the letters of [unsigned] and
    [long], and the space. *)
Theorem return_token_unchanged_iff x g :
  lstrip (py "long ") (lstrip (py "unsigned ") (lstrip (py "*") (x :: g)))
  = x :: g
  <-> mem x (py "*unsigned long ") = false.
Proof.
  assert (mem x (py "*unsigned long ")
          = mem x (py "*") || mem x (py "unsigned ") || mem x (py "long ")) as E.
  { change (py "*unsigned long ") with (py "*" ++ py "unsigned " ++ py "long ").
    by rewrite !mem_app, orb_assoc. }
  rewrite E. split.
  - intros H. apply (f_equal (@length ascii)) in H. cbn [length] in H.
    destruct (mem x (py "*")) eqn:E1.
    { pose proof (lstrip_shortens _ _ g E1).
      pose proof (lstrip_length (py "unsigned ") (lstrip (py "*") (x :: g))).
      pose proof (lstrip_length (py "long ")
                    (lstrip (py "unsigned ") (lstrip (py "*") (x :: g)))).
      lia. }
    rewrite (lstrip_keeps _ _ _ E1) in H.
    destruct (mem x (py "unsigned ")) eqn:E2.
    { pose proof (lstrip_shortens _ _ g E2).
      pose proof (lstrip_length (py "long ") (lstrip (py "unsigned ") (x :: g))).
      lia. }
    rewrite (lstrip_keeps _ _ _ E2) in H.
    destruct (mem x (py "long ")) eqn:E3; [|reflexivity].
    pose proof (lstrip_shortens _ _ g E3). lia.
  - intros H. apply orb_false_iff in H as [H H3].
    apply orb_false_iff in H as [H1 H2].
    by rewrite (lstrip_keeps _ _ _ H1), (lstrip_keeps _ _ _ H2),
      (lstrip_keeps _ _ _ H3).
Qed.

(** The return token of a function line is a non-empty run of word
    characters: it holds no space, so a return type of two words is never
    seen whole, and stripping [*] from it changes nothing. *)
Theorem function_match_return_token line m :
  search _FUNCTION_REGEX line = Some m ->
  group m 1 <> [] /\
  contains " " (group m 1) = false /\
  lstrip (py "*") (group m 1) = group m 1.
Proof.
  intros H. destruct (function_match_groups _ _ H)
    as (g1 & g2 & p & E & Hne & Hg1 & _).
  unfold group. rewrite E. cbn [get Nat.eqb].
  split; [exact Hne|].
  assert (forall x, In x (py "* ") -> mem x g1 = false) as Habs.
  { intros x Hx. apply mem_absent. eapply Forall_impl; [exact Hg1|].
    intros c Hc ->. cbn in Hx. destruct Hx as [<-|[<-|[]]]; vm_compute in Hc;
      discriminate. }
  split; [apply Habs; cbn; tauto|].
  destruct g1 as [|x g]; [done|]. apply lstrip_keeps.
  inversion Hg1 as [|? ? Hx _]; subst.
  destruct (mem x (py "*")) eqn:Em; [|reflexivity].
  apply mem_In in Em. cbn in Em. destruct Em as [<-|[]].
  vm_compute in Hx. discriminate.
Qed.

Lemma function_match_return_token_witness :
  py "int" <> [] /\
  contains " " (py "int") = false /\
  lstrip (py "*") (py "int") = py "int".
Proof.
  apply (function_match_return_token (py "unsigned int size(int n)")
           (mkMatch 15 [(3%nat, py "(int n)"); (2%nat, py "size");
                        (1%nat, py "int")])).
  vm_compute. reflexivity.
Defined.

(** ** The counter *)

Lemma next_level_step line lvl :
  0 <= lvl -> lvl mod 4 = 0 ->
  0 <= next_level line lvl <= lvl + 4 /\ next_level line lvl mod 4 = 0.
Proof.
  intros H0 H4. unfold next_level.
  repeat match goal with
         | |- context [if ?b then _ else _] => destruct b eqn:?
         end;
    repeat match goal with
           | H : _ && _ = true |- _ => apply andb_true_iff in H as [? ?]
           | H : (4 <=? _) = true |- _ => apply Z.leb_le in H
           end;
    Z.to_euclidean_division_equations; lia.
Qed.

Lemma walk_level_steps classes lines :
  forall out lvl out' lvl',
  0 <= lvl -> lvl mod 4 = 0 ->
  walk classes lines (out, lvl) = Ok (out', lvl') ->
  0 <= lvl' <= lvl + 4 * Z.of_nat (length lines) /\ lvl' mod 4 = 0.
Proof.
  induction lines as [|l lines IH]; intros out lvl out' lvl' H0 H4; cbn [walk].
  - intros [= <- <-]. cbn [length]. lia.
  - destruct (process_line classes l (out, lvl)) as [[o1 l1]|e] eqn:E;
      cbn [bind]; [|discriminate].
    destruct (process_line_ok _ _ _ _ _ _ E) as (ef & _ & _ & ->).
    destruct (next_level_step l lvl H0 H4) as (Hb & Hm).
    intros Hw. destruct (IH _ _ _ _ (proj1 Hb) Hm Hw) as (Hb' & Hm').
    cbn [length]. lia.
Qed.

(** When the walk ends, the counter is a multiple of 4 between 0 and four
    times the number of lines. *)
Theorem counter_multiple_of_four code out lvl :
  stubs_of code = Ok (out, lvl) ->
  lvl mod 4 = 0 /\ 0 <= lvl <= 4 * Z.of_nat (length (split LF code)).
Proof.
  intros H. unfold stubs_of in H.
  destruct (walk_level_steps _ _ _ _ _ _ (Z.le_refl 0) eq_refl H) as (Hb & Hm).
  split; [exact Hm|lia].
Qed.

Lemma counter_multiple_of_four_witness :
  4 mod 4 = 0 /\
  0 <= 4 <= 4 * Z.of_nat (length (split LF (py "class A {"))).
Proof.
  apply (counter_multiple_of_four (py "class A {")
           (BASE_STRING ++ py "class A:" ++ [LF] ++ py "    ..." ++ [LF]) 4).
  vm_compute. reflexivity.
Defined.

(** ** What [generate_stubs] does to the file system *)


(** Whatever happens, a file other than the destination holds after the
    call what it held before. *)
Theorem only_destination_changes path fs p :
  p <> stubs_path_of path ->
  snd (generate_stubs path fs) !! p = fs !! p.
Proof.
  intros Hp. unfold generate_stubs.
  destruct (fs !! path) as [code|]; [|reflexivity].
  destruct (stubs_of code) as [[out lvl]|e]; [|reflexivity].
  cbn [snd]. by rewrite lookup_insert_ne.
Qed.

Lemma only_destination_changes_witness :
  snd (generate_stubs (py "a.cpp") {[ py "a.cpp" := py "int x;" ]})
    !! py "b.txt"
  = ({[ py "a.cpp" := py "int x;" ]} : gmap text text) !! py "b.txt".
Proof.
  apply (only_destination_changes (py "a.cpp") {[ py "a.cpp" := py "int x;" ]}
           (py "b.txt")).
  vm_compute. discriminate.
Defined.

(** A call that returns has read the source and has written to the
    destination a text that starts with the preamble. *)
Theorem success_writes_preamble_first path fs fs' :
  generate_stubs path fs = (Ok tt, fs') ->
  exists code body,
    fs !! path = Some code /\
    fs' = <[stubs_path_of path := BASE_STRING ++ body]> fs /\
    fs' !! stubs_path_of path = Some (BASE_STRING ++ body).
Proof.
  unfold generate_stubs. destruct (fs !! path) as [code|]; [|discriminate].
  destruct (stubs_of code) as [[out lvl]|e] eqn:E; [|discriminate].
  intros [= <-]. unfold stubs_of in E.
  destruct (walk_extends _ _ _ _ _ _ E) as (body & ->).
  exists code, body. split; [reflexivity|]. split; [reflexivity|].
  apply lookup_insert_eq.
Qed.

Lemma success_writes_preamble_first_witness :
  exists code body,
    ({[ py "a.cpp" := py "int x;" ]} : gmap text text) !! py "a.cpp"
    = Some code /\
    <[py "a.pyi" := BASE_STRING ++ py "x: int" ++ [LF]]>
      ({[ py "a.cpp" := py "int x;" ]} : gmap text text)
    = <[stubs_path_of (py "a.cpp") := BASE_STRING ++ body]>
        {[ py "a.cpp" := py "int x;" ]} /\
    <[py "a.pyi" := BASE_STRING ++ py "x: int" ++ [LF]]>
      ({[ py "a.cpp" := py "int x;" ]} : gmap text text)
      !! stubs_path_of (py "a.cpp")
    = Some (BASE_STRING ++ body).
Proof.
  apply (success_writes_preamble_first (py "a.cpp")
           {[ py "a.cpp" := py "int x;" ]}).
  vm_compute. reflexivity.
Defined.


(** When the path holds no [.c], the destination is the source file
    itself: a successful call replaces the source by its stubs. *)
Theorem source_without_suffix_is_overwritten path fs code out lvl :
  has_substring (py ".c") path = false ->
  fs !! path = Some code ->
  stubs_of code = Ok (out, lvl) ->
  generate_stubs path fs = (Ok tt, <[path := out]> fs).
Proof.
  intros Hp Hfs Hs. unfold generate_stubs. rewrite Hfs, Hs.
  replace (stubs_path_of path) with path; [reflexivity|].
  rewrite <- (app_nil_r path) at 2.
  rewrite stubs_path_of_stem; [by rewrite app_nil_r|exact Hp|reflexivity].
Qed.

Lemma source_without_suffix_is_overwritten_witness :
  generate_stubs (py "point.h") {[ py "point.h" := py "int x;" ]}
  = (Ok tt, <[py "point.h" := BASE_STRING ++ py "x: int" ++ [LF]]>
              {[ py "point.h" := py "int x;" ]}).
Proof.
  apply (source_without_suffix_is_overwritten (py "point.h")
           {[ py "point.h" := py "int x;" ]} (py "int x;")
           (BASE_STRING ++ py "x: int" ++ [LF]) 0);
    vm_compute; reflexivity.
Defined.

(** ** Where a failure comes from *)






Lemma contains_cons_false x c s :
  contains x (c :: s) = false -> c <> x /\ contains x s = false.
Proof.
  unfold contains. cbn [mem existsb]. intros H.
  apply orb_false_iff in H as [H1 H2]. split; [|exact H2].
  intros ->. by rewrite Ascii.eqb_refl in H1.
Qed.




(** ** The pre-scan *)

Lemma match_at_required r s m x :
  match_at r s = Some m -> In x (required r) -> contains x s = true.
Proof.
  intros H Hx. destruct (match_at_sound _ _ _ H) as (w & rest & -> & _ & M).
  apply mem_In, in_app_iff. left. eapply matches_required; eauto.
Qed.

Lemma findall_without r x :
  In x (required r) ->
  forall s skip, contains x s = false -> findall_go r skip s = [].
Proof.
  intros Hx. induction s as [|c s IH]; intros skip H; [reflexivity|].
  pose proof (contains_cons_false _ _ _ H) as [_ Hs].
  cbn [findall_go]. destruct skip as [|n]; [|by apply IH].
  destruct (match_at r (c :: s)) as [m|] eqn:E; [|by apply IH].
  rewrite (match_at_required _ _ _ _ E Hx) in H. discriminate.
Qed.

(** The pre-scan learns a class only from a declaration with its opening
    brace: a source without [{] gives no class name, whatever [class]
    lines it has. *)
Theorem classes_need_an_opening_brace code :
  contains "{" code = false -> findall _GET_CLASSES_REGEX code = [].
Proof.
  intros H. unfold findall. apply (findall_without _ "{"); [|exact H].
  cbn. tauto.
Qed.

Lemma classes_need_an_opening_brace_witness :
  findall _GET_CLASSES_REGEX (py "class Human;") = [].
Proof.
  apply (classes_need_an_opening_brace (py "class Human;")).
  vm_compute. reflexivity.
Defined.

Lemma class_scan_group s m :
  match_at _GET_CLASSES_REGEX s = Some m ->
  group m 1 <> [] /\ Forall (fun x => is_word x = true) (group m 1).
Proof.
  intros H. destruct (match_at_sound _ _ _ H) as (w & rest & _ & _ & M).
  unfold _GET_CLASSES_REGEX in M. cbn [word py list_ascii_of_string] in M.
  inv_matches. unfold group.
  match goal with E : _ = m_caps m |- _ => try rewrite <- E end.
  cbn [get Nat.eqb]. split; [assumption|].
  match goal with
  | H : Forall (fun x => atom_ok (Cls [Word; Digit; Lit "_"]) x = true) ?w
    |- Forall _ ?w => apply (Forall_impl _ _ _ H)
  end.
  intros y Hy. change (Cls [Word; Digit; Lit "_"]) with identifier_class in Hy.
  by rewrite identifier_ok_word in Hy.
Qed.

(** Every class name that the pre-scan collects is a non-empty run of
    word characters. *)
Theorem scanned_classes_are_words code :
  Forall (fun name => name <> [] /\ Forall (fun x => is_word x = true) name)
         (findall _GET_CLASSES_REGEX code).
Proof.
  unfold findall. generalize 0%nat as skip.
  induction code as [|c s IH]; intros skip; cbn [findall_go]; [constructor|].
  destruct skip as [|n]; [|apply IH].
  destruct (match_at _GET_CLASSES_REGEX (c :: s)) as [m|] eqn:E; [|apply IH].
  destruct (m_len m); [apply IH|].
  constructor; [by eapply class_scan_group|apply IH].
Qed.
